(** * Excel to XML converter: a model of [ExcelToXmlConverter.tsx]

    The development embeds the conversion logic of the React component
    [ExcelToXmlConverter] (file [src/components/ExcelToXmlConverter.tsx]):
    the helpers [escapeXml] and [sanitizeTagName], the serializer
    [convertToXml] and the upload guard of [handleFileUpload].

    Conventions.
    - A JavaScript string is a [string]; one [ascii] stands for one UTF-16
      code unit (the regular expressions of the source carry no [u] flag, so
      they work code unit by code unit).
    - A cell of [SheetData.data : any[][]] is a [Cell]: the spreadsheet
      reader hands over strings, numbers and booleans.
    - The component state is the record [State]; a handler maps a state to
      the next state and the list of [Event]s it caused (toasts, calls of
      the spreadsheet reader). *)

From Stdlib Require Import Ascii String DecimalString DecimalNat DecimalPos ZArith Lia.
From stdpp Require Import base list gmap strings.

(** ** Strings *)

Module Str.

(** [s.replace(/C/g, r)] for a regular expression [C] that matches exactly
    one code unit, the ones satisfying [p]; [r] holds no [$] pattern. *)
Fixpoint replaceAll (p : ascii → bool) (r : string) (s : string) : string :=
  match s with
  | EmptyString => EmptyString
  | String c s' => (if p c then r else String c EmptyString) +:+ replaceAll p r s'
  end.

(** [s.replace(/^C/, r)]: only a first code unit satisfying [p] is replaced. *)
Definition replaceLeading (p : ascii → bool) (r : string) (s : string) : string :=
  match s with
  | EmptyString => EmptyString
  | String c s' => if p c then r +:+ s' else s
  end.

(** Every code unit of [s] satisfies [p]. *)
Fixpoint all (p : ascii → bool) (s : string) : bool :=
  match s with
  | EmptyString => true
  | String c s' => p c && all p s'
  end.

(** [c] is one of the code units of [s]. *)
Fixpoint mem (c : ascii) (s : string) : bool :=
  match s with
  | EmptyString => false
  | String d s' => Ascii.eqb c d || mem c s'
  end.

(** [s] starts with [pre]. *)
Fixpoint startsWith (pre s : string) : bool :=
  match pre with
  | EmptyString => true
  | String a pre' =>
      match s with
      | EmptyString => false
      | String b s' => Ascii.eqb a b && startsWith pre' s'
      end
  end.

(** [pat] occurs in [s] as a contiguous piece. *)
Definition occurs (pat s : string) : Prop :=
  ∃ pre post, s = pre +:+ pat +:+ post.

(** The concatenation of a list of strings. *)
Fixpoint cat (xs : list string) : string :=
  match xs with
  | [] => EmptyString
  | x :: xs' => x +:+ cat xs'
  end.

(** [s.toLowerCase()] on the letters [A-Z]; other code units are kept. *)
Definition lower (c : ascii) : ascii :=
  let n := nat_of_ascii c in
  if (65 <=? n)%nat && (n <=? 90)%nat then ascii_of_nat (n + 32) else c.

Fixpoint lowercase (s : string) : string :=
  match s with
  | EmptyString => EmptyString
  | String c s' => String (lower c) (lowercase s')
  end.

(** [s] ends with [suf]: [suf] is [s] or the end of the rest of [s]. *)
Fixpoint endsWith (suf s : string) : bool :=
  String.eqb s suf
  || match s with
     | EmptyString => false
     | String _ s' => endsWith suf s'
     end.

End Str.

(** ** Character classes of the regular expressions *)

Definition between (lo hi c : ascii) : bool :=
  (nat_of_ascii lo <=? nat_of_ascii c)%nat && (nat_of_ascii c <=? nat_of_ascii hi)%nat.

(** [[a-zA-Z]] *)
Definition is_letter (c : ascii) : bool := between "a" "z" c || between "A" "Z" c.

(** [[0-9]] *)
Definition is_digit (c : ascii) : bool := between "0" "9" c.

(** [[a-zA-Z0-9_-]] *)
Definition is_name_char (c : ascii) : bool :=
  is_letter c || is_digit c || Ascii.eqb c "_" || Ascii.eqb c "-".

(** [[a-zA-Z_]] *)
Definition is_name_start (c : ascii) : bool := is_letter c || Ascii.eqb c "_".

(** [[^a-zA-Z0-9_-]] and [[^a-zA-Z_]] *)
Definition outside_name (c : ascii) : bool := negb (is_name_char c).
Definition outside_start (c : ascii) : bool := negb (is_name_start c).

(** The code units that cannot be written inside a string literal here. *)
Definition dquote : ascii := Eval cbv in ascii_of_nat 34.
Definition newline : ascii := Eval cbv in ascii_of_nat 10.
Definition q : string := String dquote EmptyString.
Definition nl : string := String newline EmptyString.

(** ** The helper functions *)

(** [escapeXml]: five global replacements, ampersand first. *)
Definition escapeXml (str : string) : string :=
  Str.replaceAll (Ascii.eqb "'") "&apos;"
    (Str.replaceAll (Ascii.eqb dquote) "&quot;"
      (Str.replaceAll (Ascii.eqb ">") "&gt;"
        (Str.replaceAll (Ascii.eqb "<") "&lt;"
          (Str.replaceAll (Ascii.eqb "&") "&amp;" str)))).

(** [sanitizeTagName]: [.replace(/[^a-zA-Z0-9_-]/g, "_").replace(/^[^a-zA-Z_]/, "_")]. *)
Definition sanitizeTagName (tag : string) : string :=
  Str.replaceLeading outside_start "_"
    (Str.replaceAll outside_name "_" tag).

(** The regular expression [^[A-Za-z_][A-Za-z0-9_-]*$] as a recogniser. *)
Definition matches_tag_regex (s : string) : bool :=
  match s with
  | EmptyString => false
  | String c s' => is_name_start c && Str.all is_name_char s'
  end.

(** ** Cells and sheets *)

(** A value of a cell, as [XLSX.utils.sheet_to_json] with [header: 1] and
    the empty string as [defval] returns it: a string, a number or a boolean.  The numbers
    of the model are the integers, and [String] writes an integer as its
    decimal numeral, as JavaScript does below [10^21] in absolute value
    (from there on it writes an exponent, so what is stated about the text
    of a number is stated below that bound).  Fractions, [NaN] and the other
    values a reader may return are not represented. *)
Inductive Cell : Type :=
  | CStr (s : string)
  | CNum (z : Z)
  | CBool (b : bool).

#[global] Instance Cell_eq_dec : EqDecision Cell.
Proof. solve_decision. Defined.

(** [interface SheetData { name: string; data: any[][] }] *)
Record SheetData : Type := mkSheet {
  name : string;
  data : list (list Cell)
}.

(** [String(n)] for a natural number [n]. *)
Definition string_of_nat (n : nat) : string :=
  NilEmpty.string_of_uint (Nat.to_uint n).

(** [String(cell)] *)
Definition String_ (cell : Cell) : string :=
  match cell with
  | CStr s => s
  | CNum z => NilEmpty.string_of_int (Z.to_int z)
  | CBool true => "true"
  | CBool false => "false"
  end.

(** The truth value of [cell] in a condition: the empty string, zero and
    [false] are falsy. *)
Definition truthy (cell : Cell) : bool :=
  match cell with
  | CStr s => negb (String.eqb s EmptyString)
  | CNum z => negb (z =? 0)%Z
  | CBool b => b
  end.

(** [cell] is not strictly equal to the empty string. *)
Definition not_empty_string (cell : Cell) : bool :=
  match cell with
  | CStr s => negb (String.eqb s EmptyString)
  | CNum _ | CBool _ => true
  end.

(** ** The serializer, [convertToXml] *)

(** The tag name of the cell at [cellIndex]:
    [headers[cellIndex] ? sanitizeTagName(String(headers[cellIndex]))
                        : `Column${cellIndex + 1}`];
    an index outside [headers] reads [undefined], which is falsy. *)
Definition tagName (headers : list Cell) (cellIndex : nat) : string :=
  match headers !! cellIndex with
  | Some h =>
      if truthy h then sanitizeTagName (String_ h)
      else "Column" +:+ string_of_nat (cellIndex + 1)
  | None => "Column" +:+ string_of_nat (cellIndex + 1)
  end.

(** [xs.forEach((x, i) => ...)] for a body that updates the variable [xml]. *)
Fixpoint forEach_from {A : Type} (body : A → nat → string → string)
    (xs : list A) (i : nat) (xml : string) : string :=
  match xs with
  | [] => xml
  | x :: xs' => forEach_from body xs' (S i) (body x i xml)
  end.

Definition forEach {A : Type} (body : A → nat → string → string)
    (xs : list A) (xml : string) : string :=
  forEach_from body xs 0 xml.

(** The body of [row.forEach((cell, cellIndex) => ...)]. *)
Definition emit_cell (headers : list Cell) (cell : Cell) (cellIndex : nat)
    (xml : string) : string :=
  let tag := tagName headers cellIndex in
  let value := escapeXml (String_ cell) in
  xml +:+ ("      <" +:+ tag +:+ ">" +:+ value +:+ "</" +:+ tag +:+ ">" +:+ nl).

(** The body of the [for] loop over the data rows, for the row [row]. *)
Definition emit_row (headers : list Cell) (row : list Cell) (xml : string) : string :=
  if existsb not_empty_string row then
    let xml := xml +:+ ("    <Row>" +:+ nl) in
    let xml := forEach (emit_cell headers) row xml in
    xml +:+ ("    </Row>" +:+ nl)
  else xml.

(** [for (let i = lo; i < hi; i++) body]: [n] iterations are left.  A body
    that throws ([None]) ends the loop. *)
Fixpoint for_loop (body : nat → string → option string) (i n : nat)
    (xml : string) : option string :=
  match n with
  | O => Some xml
  | S n' =>
      match body i xml with
      | Some xml' => for_loop body (S i) n' xml'
      | None => None
      end
  end.

(** [for (let i = 1; i < data.length; i++) { const row = data[i]; ... }];
    reading [undefined] for the row would throw at [row.some]. *)
Definition emit_rows (headers : list Cell) (data : list (list Cell))
    (xml : string) : option string :=
  for_loop (λ i xml, match data !! i with
                     | Some row => Some (emit_row headers row xml)
                     | None => None
                     end)
           1 (length data - 1) xml.

(** The body of [selectedSheetsArray.forEach((sheet, sheetIndex) => ...)],
    the progress bar apart. *)
Definition emit_sheet (sheet : SheetData) (xml : string) : option string :=
  let xml := xml +:+ ("  <Sheet name=" +:+ q +:+ escapeXml (name sheet) +:+ q +:+ ">" +:+ nl) in
  let body :=
    if (0 <? length (data sheet))%nat then
      match data sheet !! 0%nat with
      | Some headers => emit_rows headers (data sheet) xml
      | None => None
      end
    else Some xml in
  match body with
  | Some xml => Some (xml +:+ ("  </Sheet>" +:+ nl))
  | None => None
  end.

Fixpoint emit_sheets (selected : list SheetData) (xml : string) : option string :=
  match selected with
  | [] => Some xml
  | sheet :: rest =>
      match emit_sheet sheet xml with
      | Some xml' => emit_sheets rest xml'
      | None => None
      end
  end.

Definition prolog : string :=
  "<?xml version=" +:+ q +:+ "1.0" +:+ q +:+ " encoding=" +:+ q +:+ "UTF-8" +:+ q
  +:+ "?>" +:+ nl +:+ "<Workbook>" +:+ nl.

(** [sheets.filter(s => selectedSheets.has(s.name))] *)
Definition selectedSheetsArray (sheets : list SheetData)
    (selectedSheets : gset string) : list SheetData :=
  filter (λ s, name s ∈ selectedSheets) sheets.

(** The [try] block of [convertToXml]: the text passed to [setXmlOutput], or
    [None] when an exception reaches the [catch]. *)
Definition buildXml (sheets : list SheetData) (selectedSheets : gset string)
    : option string :=
  match emit_sheets (selectedSheetsArray sheets selectedSheets) prolog with
  | Some xml => Some (xml +:+ "</Workbook>")
  | None => None
  end.

(** ** The component: state, events, handlers *)

(** The part of a [File] the component reads; [file_bytes] is what
    [await uploadedFile.arrayBuffer()] gives, [None] when the promise is
    rejected. *)
Record File : Type := mkFile {
  file_name : string;
  file_type : string;
  file_bytes : option (list Byte.byte)
}.

(** The notifications, by their titles. *)
Inductive Toast : Type :=
  | InvalidFileType
  | FileLoadedSuccessfully (count : nat)
  | ErrorReadingFile
  | NoSheetsSelected
  | ConversionComplete (count : nat)
  | ConversionError.

(** What a handler does besides updating the state. *)
Inductive Event : Type :=
  | EToast (t : Toast)
  | EXlsxRead (bytes : list Byte.byte).

(** The state variables of the component; [progress], a floating-point
    percentage that only feeds the progress bar, and [dragActive] are left
    out. *)
Record State : Type := mkState {
  file : option File;
  sheets : list SheetData;
  selectedSheets : gset string;
  xmlOutput : string;
  processing : bool
}.

Definition initial : State :=
  {| file := None; sheets := []; selectedSheets := ∅;
     xmlOutput := EmptyString; processing := false |}.

(** The error kinds of the specification, as the toasts that report them. *)
Definition UnsupportedFormat : Toast := InvalidFileType.
Definition ParseError : Toast := ErrorReadingFile.
Definition EmptySelection : Toast := NoSheetsSelected.

(** [convertToXml] *)
Definition convertToXml (st : State) : State * list Event :=
  if (length (sheets st) =? 0)%nat || (size (selectedSheets st) =? 0)%nat then
    (st, [EToast NoSheetsSelected])
  else
    match buildXml (sheets st) (selectedSheets st) with
    | Some xml =>
        ({| file := file st; sheets := sheets st;
            selectedSheets := selectedSheets st;
            xmlOutput := xml; processing := false |},
         [EToast (ConversionComplete (size (selectedSheets st)))])
    | None =>
        ({| file := file st; sheets := sheets st;
            selectedSheets := selectedSheets st;
            xmlOutput := xmlOutput st; processing := false |},
         [EToast ConversionError])
    end.

(** [toggleSheet] *)
Definition toggleSheet (sheetName : string) (st : State) : State :=
  {| file := file st; sheets := sheets st;
     selectedSheets :=
       if decide (sheetName ∈ selectedSheets st)
       then selectedSheets st ∖ {[ sheetName ]}
       else selectedSheets st ∪ {[ sheetName ]};
     xmlOutput := xmlOutput st; processing := processing st |}.

Definition validTypes : list string :=
  [ "application/vnd.openxmlformats-officedocument.spreadsheetml.sheet";
    "application/vnd.ms-excel";
    "text/csv" ].

(** [validTypes.includes(t)] *)
Definition includes (xs : list string) (t : string) : bool :=
  existsb (String.eqb t) xs.

(** [name.match(/\.(xlsx|xls|csv)$/i)] is not [null]. *)
Definition matches_extension (name : string) : bool :=
  existsb (λ ext, Str.endsWith ext (Str.lowercase name)) [".xlsx"; ".xls"; ".csv"].

Section Upload.

(** The spreadsheet reader: [XLSX.read] on the bytes of the file, then
    [sheet_to_json] on every sheet in the order of [SheetNames]; [None]
    when it throws. *)
Variable XLSX_read : list Byte.byte → option (list SheetData).

(** [handleFileUpload]; [None] is the missing file of the first guard.  In
    the [try] block the bytes of the file are awaited first and the reader
    is called on them; a rejected promise and a reader that throws both end
    in the [catch]. *)
Definition handleFileUpload (uploadedFile : option File) (st : State)
    : State * list Event :=
  match uploadedFile with
  | None => (st, [])
  | Some f =>
      if negb (includes validTypes (file_type f))
         && negb (matches_extension (file_name f)) then
        (st, [EToast InvalidFileType])
      else
        match file_bytes f with
        | None =>
            ({| file := None; sheets := sheets st;
                selectedSheets := selectedSheets st;
                xmlOutput := xmlOutput st; processing := false |},
             [EToast ErrorReadingFile])
        | Some arrayBuffer =>
            match XLSX_read arrayBuffer with
            | Some extractedSheets =>
                ({| file := Some f; sheets := extractedSheets;
                    selectedSheets := list_to_set (name <$> extractedSheets);
                    xmlOutput := xmlOutput st; processing := false |},
                 [EXlsxRead arrayBuffer;
                  EToast (FileLoadedSuccessfully (length extractedSheets))])
            | None =>
                ({| file := None; sheets := sheets st;
                    selectedSheets := selectedSheets st;
                    xmlOutput := xmlOutput st; processing := false |},
                 [EXlsxRead arrayBuffer; EToast ErrorReadingFile])
            end
        end
  end.

End Upload.

(** ** The other handlers of the component *)

(** The handlers of the two reset buttons, [Change File] and
    [Convert Another File]: [setFile(null)], [setSheets([])] and
    [setXmlOutput] with the empty string; the selection is not touched. *)
Definition resetFile (st : State) : State :=
  {| file := None; sheets := [];
     selectedSheets := selectedSheets st;
     xmlOutput := EmptyString; processing := processing st |}.

(** [[^/.]] *)
Definition extension_char (c : ascii) : bool :=
  negb (Ascii.eqb c "/" || Ascii.eqb c ".").

(** [name.replace(/\.[^/.]+$/, empty)]: the first position where a dot is
    followed, up to the end of the name, by one code unit or more out of
    [[^/.]] starts the match, which is removed. *)
Fixpoint stripExtension (name : string) : string :=
  match name with
  | EmptyString => EmptyString
  | String c rest =>
      if Ascii.eqb c "."
         && negb (String.eqb rest EmptyString)
         && Str.all extension_char rest
      then EmptyString
      else String c (stripExtension rest)
  end.

(** The value given to [a.download] in [downloadXml]. *)
Definition downloadName (file : option File) : string :=
  match file with
  | Some f => stripExtension (file_name f) +:+ ".xml"
  | None => "output.xml"
  end.

(** What [downloadXml] saves: the name of the file and the text of the
    [Blob]. *)
Record Download : Type := mkDownload {
  download_name : string;
  download_text : string
}.

(** [downloadXml]: [None] is the return of the first guard, taken when
    [xmlOutput] is the empty string. *)
Definition downloadXml (st : State) : option Download :=
  if String.eqb (xmlOutput st) EmptyString then None
  else Some {| download_name := downloadName (file st);
               download_text := xmlOutput st |}.

(** [handleDrop] and the [onChange] handler of the file input: the first
    file of the list, when there is one, goes to [handleFileUpload]. *)
Definition handleFiles (XLSX_read : list Byte.byte → option (list SheetData))
    (files : list File) (st : State) : State * list Event :=
  match files with
  | [] => (st, [])
  | f :: _ => handleFileUpload XLSX_read (Some f) st
  end.

(** What the user can do with the component. *)
Inductive Action : Type :=
  | AUpload (files : list File)
  | AToggle (sheetName : string)
  | AConvert
  | AReset.

(** The state after an action; a handler runs to its end before the next
    action is taken. *)
Definition perform (XLSX_read : list Byte.byte → option (list SheetData))
    (a : Action) (st : State) : State :=
  match a with
  | AUpload files => fst (handleFiles XLSX_read files st)
  | AToggle sheetName => toggleSheet sheetName st
  | AConvert => fst (convertToXml st)
  | AReset => resetFile st
  end.

(** The interface offers a checkbox for the listed sheets only; the other
    actions are taken as always possible, which allows at least what the
    interface allows. *)
Definition offered (a : Action) (st : State) : Prop :=
  match a with
  | AToggle sheetName => In sheetName (name <$> sheets st)
  | AUpload _ | AConvert | AReset => True
  end.

(** The states the component reaches from its initial state. *)
Inductive reachable (XLSX_read : list Byte.byte → option (list SheetData))
    : State → Prop :=
  | reach_initial : reachable XLSX_read initial
  | reach_step (st : State) (a : Action) :
      reachable XLSX_read st → offered a st →
      reachable XLSX_read (perform XLSX_read a st).

(** ** Reference definitions the theorems compare the code with *)

(** The five characters [escapeXml] replaces. *)
Definition special : list ascii := ["&"; "<"; ">"; dquote; "'"]%char.

(** The entity [escapeXml] writes for a special character; any other
    character stands for itself. *)
Definition entity (c : ascii) : string :=
  if Ascii.eqb c "&" then "&amp;"
  else if Ascii.eqb c "<" then "&lt;"
  else if Ascii.eqb c ">" then "&gt;"
  else if Ascii.eqb c dquote then "&quot;"
  else if Ascii.eqb c "'" then "&apos;"
  else String c EmptyString.

(** Every character replaced by its image under [f], in one pass. *)
Fixpoint flat (f : ascii → string) (s : string) : string :=
  match s with
  | EmptyString => EmptyString
  | String c s' => f c +:+ flat f s'
  end.

(** What may follow an ampersand in escaped text. *)
Definition entity_tails : list string := ["amp;"; "lt;"; "gt;"; "quot;"; "apos;"].

(** No raw special character is left: [<], [>], the two quotes do not occur,
    and every [&] starts one of the five entities. *)
Fixpoint escaped (s : string) : bool :=
  match s with
  | EmptyString => true
  | String c s' =>
      (if Ascii.eqb c "&" then existsb (λ t, Str.startsWith t s') entity_tails
       else negb (existsb (Ascii.eqb c) special))
      && escaped s'
  end.

(** The text of one child element of a row. *)
Definition cellXml (headers : list Cell) (cellIndex : nat) (cell : Cell) : string :=
  "      <" +:+ tagName headers cellIndex +:+ ">" +:+ escapeXml (String_ cell)
  +:+ "</" +:+ tagName headers cellIndex +:+ ">" +:+ nl.

(** The child elements of a row, one per cell, from column [i] on. *)
Fixpoint children_from (headers : list Cell) (i : nat) (row : list Cell) : list string :=
  match row with
  | [] => []
  | cell :: row' => cellXml headers i cell :: children_from headers (S i) row'
  end.

Definition children (headers row : list Cell) : list string :=
  children_from headers 0 row.

(** A [<Row>] element around the given children. *)
Definition rowElement (kids : list string) : string :=
  ("    <Row>" +:+ nl) +:+ Str.cat kids +:+ ("    </Row>" +:+ nl).

(** Every cell of the row is the empty string. *)
Definition blank (row : list Cell) : Prop :=
  ∀ cell, In cell row → cell = CStr EmptyString.

(** The text a data row contributes to the document. *)
Definition rowXml (headers row : list Cell) : string :=
  if existsb not_empty_string row then rowElement (children headers row)
  else EmptyString.

Definition sheetOpen (sheet : SheetData) : string :=
  "  <Sheet name=" +:+ q +:+ escapeXml (name sheet) +:+ q +:+ ">" +:+ nl.

Definition sheetClose : string := "  </Sheet>" +:+ nl.

(** A [<Sheet>] element: the opening tag, the rows after the header row, the
    closing tag. *)
Definition sheetElement (sheet : SheetData) : string :=
  sheetOpen sheet
  +:+ Str.cat (map (rowXml (hd [] (data sheet))) (tail (data sheet)))
  +:+ sheetClose.


(** ** The spreadsheet reader *)





(** ** Facts about strings *)

Module StrFacts.

Lemma app_cons (c : ascii) (s t : string) :
  String c s +:+ t = String c (s +:+ t).
Proof. reflexivity. Qed.

Lemma app_nil_l (s : string) : EmptyString +:+ s = s.
Proof. reflexivity. Qed.

Lemma app_nil_r (s : string) : s +:+ EmptyString = s.
Proof. induction s as [|c s IH]; [reflexivity | now rewrite app_cons, IH]. Qed.

Lemma app_assoc (a b c : string) : (a +:+ b) +:+ c = a +:+ (b +:+ c).
Proof. induction a as [|x a IH]; [reflexivity | now rewrite !app_cons, IH]. Qed.

Lemma length_app (a b : string) :
  String.length (a +:+ b) = String.length a + String.length b.
Proof.
  induction a as [|x a IH]; [reflexivity |].
  rewrite app_cons. simpl. now rewrite IH.
Qed.

Lemma replaceAll_app p r (a b : string) :
  Str.replaceAll p r (a +:+ b) = Str.replaceAll p r a +:+ Str.replaceAll p r b.
Proof.
  induction a as [|x a IH]; simpl; [reflexivity |].
  now rewrite IH, app_assoc.
Qed.

Lemma all_app p (a b : string) :
  Str.all p (a +:+ b) = Str.all p a && Str.all p b.
Proof.
  induction a as [|x a IH]; simpl; [reflexivity |].
  now rewrite IH, andb_assoc.
Qed.

Lemma cat_app (xs ys : list string) :
  Str.cat (xs ++ ys) = Str.cat xs +:+ Str.cat ys.
Proof.
  induction xs as [|x xs IH]; simpl; [reflexivity |].
  now rewrite IH, app_assoc.
Qed.

Lemma occurs_here (pat post : string) : Str.occurs pat (pat +:+ post).
Proof. now exists EmptyString, post. Qed.

Lemma occurs_later (pat pre s : string) :
  Str.occurs pat s → Str.occurs pat (pre +:+ s).
Proof.
  intros (a & b & ->). exists (pre +:+ a), b. now rewrite app_assoc.
Qed.

Lemma occurs_earlier (pat s post : string) :
  Str.occurs pat s → Str.occurs pat (s +:+ post).
Proof.
  intros (a & b & ->). exists a, (b +:+ post). now rewrite !app_assoc.
Qed.

Lemma occurs_cat (f : SheetData → string) (x : SheetData) (l : list SheetData) :
  In x l → Str.occurs (f x) (Str.cat (map f l)).
Proof.
  induction l as [|y l IH]; simpl; [tauto |].
  intros [-> | Hin].
  - apply occurs_here.
  - apply occurs_later, IH, Hin.
Qed.

End StrFacts.

(** ** Escaping *)

Lemma ascii_eqb_false (a b : ascii) : a ≠ b → Ascii.eqb a b = false.
Proof. intros H. now apply Ascii.eqb_neq. Qed.

Lemma escapeXml_char (c : ascii) : escapeXml (String c EmptyString) = entity c.
Proof.
  unfold escapeXml, entity.
  destruct (Ascii.eqb_spec c "&") as [-> | H1]; [reflexivity |].
  destruct (Ascii.eqb_spec c "<") as [-> | H2]; [reflexivity |].
  destruct (Ascii.eqb_spec c ">") as [-> | H3]; [reflexivity |].
  destruct (Ascii.eqb_spec c dquote) as [-> | H4]; [reflexivity |].
  destruct (Ascii.eqb_spec c "'") as [-> | H5]; [reflexivity |].
  repeat (cbn [Str.replaceAll];
          rewrite (ascii_eqb_false _ c) by congruence;
          rewrite StrFacts.app_cons, StrFacts.app_nil_l).
  reflexivity.
Qed.

Lemma escapeXml_app (a b : string) :
  escapeXml (a +:+ b) = escapeXml a +:+ escapeXml b.
Proof. unfold escapeXml. now rewrite !StrFacts.replaceAll_app. Qed.

Lemma escapeXml_flat (s : string) : escapeXml s = flat entity s.
Proof.
  induction s as [|c s IH]; [reflexivity |].
  change (String c s) with (String c EmptyString +:+ s).
  rewrite escapeXml_app, escapeXml_char, IH. reflexivity.
Qed.

Lemma escaped_entity (c : ascii) (t : string) :
  escaped (entity c +:+ t) = escaped t.
Proof.
  unfold entity.
  destruct (Ascii.eqb_spec c "&") as [-> | H1]; [reflexivity |].
  destruct (Ascii.eqb_spec c "<") as [-> | H2]; [reflexivity |].
  destruct (Ascii.eqb_spec c ">") as [-> | H3]; [reflexivity |].
  destruct (Ascii.eqb_spec c dquote) as [-> | H4]; [reflexivity |].
  destruct (Ascii.eqb_spec c "'") as [-> | H5]; [reflexivity |].
  rewrite StrFacts.app_cons, StrFacts.app_nil_l.
  cbn [escaped special existsb].
  rewrite !(ascii_eqb_false c) by congruence. reflexivity.
Qed.

Lemma escaped_flat (s : string) : escaped (flat entity s) = true.
Proof.
  induction s as [|c s IH]; [reflexivity |].
  cbn [flat]. now rewrite escaped_entity.
Qed.

Lemma escaped_no_raw (c : ascii) (s : string) :
  escaped s = true → In c special → c ≠ "&"%char → Str.mem c s = false.
Proof.
  intros Hs Hc Hamp. induction s as [|d s IH]; [reflexivity |].
  cbn [escaped] in Hs. apply andb_prop in Hs as [Hd Hs].
  cbn [Str.mem]. rewrite (IH Hs), orb_false_r.
  destruct (Ascii.eqb_spec c d) as [<- | Hne]; [| reflexivity].
  rewrite (ascii_eqb_false c "&") in Hd by assumption.
  apply negb_true_iff in Hd.
  assert (existsb (Ascii.eqb c) special = true) as Hex.
  { apply existsb_exists. exists c. split; [assumption | apply Ascii.eqb_refl]. }
  congruence.
Qed.

Lemma entity_occurs (c : ascii) (s : string) :
  Str.mem c s = true → Str.occurs (entity c) (flat entity s).
Proof.
  induction s as [|d s IH]; cbn [Str.mem flat]; [discriminate |].
  destruct (Ascii.eqb_spec c d) as [<- | Hne]; cbn [orb].
  - intros _. apply StrFacts.occurs_here.
  - intros H. apply StrFacts.occurs_later, IH, H.
Qed.

(** ** Tag names *)

Lemma outside_name_eq (c : ascii) : outside_name c = negb (is_name_char c).
Proof. reflexivity. Qed.

Lemma outside_start_eq (c : ascii) : outside_start c = negb (is_name_start c).
Proof. reflexivity. Qed.

Lemma name_start_name_char (c : ascii) :
  is_name_start c = true → is_name_char c = true.
Proof.
  unfold is_name_start, is_name_char.
  destruct (is_letter c), (is_digit c), (Ascii.eqb c "_"); simpl; congruence.
Qed.

Lemma digit_name_char (c : ascii) : is_digit c = true → is_name_char c = true.
Proof.
  unfold is_name_char. intros ->. now rewrite orb_true_r.
Qed.

Lemma all_impl (p r : ascii → bool) (s : string) :
  (∀ c, p c = true → r c = true) → Str.all p s = true → Str.all r s = true.
Proof.
  intros Hpr. induction s as [|c s IH]; simpl; [reflexivity |].
  intros H. apply andb_prop in H as [Hc Hs].
  now rewrite (Hpr _ Hc), IH.
Qed.

Lemma replaceAll_cons p r (c : ascii) (s : string) :
  Str.replaceAll p r (String c s)
  = (if p c then r else String c EmptyString) +:+ Str.replaceAll p r s.
Proof. reflexivity. Qed.

Lemma replaceAll_name_chars (s : string) :
  Str.all is_name_char (Str.replaceAll outside_name "_" s) = true.
Proof.
  induction s as [|c s IH]; [reflexivity |].
  rewrite replaceAll_cons.
  rewrite outside_name_eq; destruct (is_name_char c) eqn:E; simpl negb; cbv iota;
    rewrite StrFacts.app_cons, StrFacts.app_nil_l; simpl Str.all.
  - now rewrite E, IH.
  - now rewrite IH.
Qed.

Lemma replaceAll_length (s : string) :
  String.length (Str.replaceAll outside_name "_" s) = String.length s.
Proof.
  induction s as [|c s IH]; [reflexivity |].
  rewrite replaceAll_cons.
  destruct (outside_name c);
    rewrite StrFacts.app_cons, StrFacts.app_nil_l; simpl; now rewrite IH.
Qed.

Lemma replaceAll_fixed (s : string) :
  Str.all is_name_char s = true → Str.replaceAll outside_name "_" s = s.
Proof.
  induction s as [|c s IH]; [reflexivity |].
  simpl Str.all. intros H. apply andb_prop in H as [Hc Hs].
  rewrite replaceAll_cons, (IH Hs), outside_name_eq. now rewrite Hc.
Qed.

Lemma replaceLeading_name_chars (s : string) :
  Str.all is_name_char s = true →
  Str.all is_name_char (Str.replaceLeading outside_start "_" s) = true.
Proof.
  destruct s as [|c s]; [reflexivity |].
  unfold Str.replaceLeading. simpl Str.all. intros H.
  apply andb_prop in H as [Hc Hs].
  destruct (outside_start c).
  - rewrite StrFacts.app_cons, StrFacts.app_nil_l. simpl Str.all. now rewrite Hs.
  - simpl Str.all. now rewrite Hc, Hs.
Qed.

Lemma replaceLeading_length (s : string) :
  String.length (Str.replaceLeading outside_start "_" s) = String.length s.
Proof.
  destruct s as [|c s]; [reflexivity |].
  unfold Str.replaceLeading. now destruct (outside_start c).
Qed.

Lemma replaceLeading_matches (s : string) :
  Str.all is_name_char s = true →
  matches_tag_regex (Str.replaceLeading outside_start "_" s)
  = negb (String.eqb s EmptyString).
Proof.
  destruct s as [|c s]; [reflexivity |].
  unfold Str.replaceLeading. simpl Str.all. intros H.
  apply andb_prop in H as [Hc Hs].
  rewrite outside_start_eq; destruct (is_name_start c) eqn:E; simpl negb; cbv iota.
  - simpl. now rewrite E, Hs.
  - rewrite StrFacts.app_cons, StrFacts.app_nil_l. simpl. now rewrite Hs.
Qed.

Lemma replaceLeading_fixed (s : string) :
  matches_tag_regex s = true → Str.replaceLeading outside_start "_" s = s.
Proof.
  destruct s as [|c s]; [reflexivity |].
  simpl. intros H. apply andb_prop in H as [Hc _]. rewrite outside_start_eq. now rewrite Hc.
Qed.

Lemma matches_name_chars (s : string) :
  matches_tag_regex s = true → Str.all is_name_char s = true.
Proof.
  destruct s as [|c s]; [discriminate |].
  simpl. intros H. apply andb_prop in H as [Hc Hs].
  now rewrite (name_start_name_char _ Hc), Hs.
Qed.

Lemma sanitizeTagName_length (tag : string) :
  String.length (sanitizeTagName tag) = String.length tag.
Proof.
  unfold sanitizeTagName. now rewrite replaceLeading_length, replaceAll_length.
Qed.

Lemma replaceAll_empty (s : string) :
  String.eqb (Str.replaceAll outside_name "_" s) EmptyString
  = String.eqb s EmptyString.
Proof.
  destruct s as [|c s]; [reflexivity |].
  rewrite replaceAll_cons.
  destruct (outside_name c);
    now rewrite StrFacts.app_cons, StrFacts.app_nil_l.
Qed.

Lemma sanitizeTagName_matches (tag : string) :
  matches_tag_regex (sanitizeTagName tag) = negb (String.eqb tag EmptyString).
Proof.
  unfold sanitizeTagName.
  rewrite replaceLeading_matches by apply replaceAll_name_chars.
  now rewrite replaceAll_empty.
Qed.

Lemma sanitizeTagName_fixed (tag : string) :
  matches_tag_regex tag = true → sanitizeTagName tag = tag.
Proof.
  intros H. unfold sanitizeTagName.
  rewrite replaceAll_fixed by now apply matches_name_chars.
  now apply replaceLeading_fixed.
Qed.

Lemma uint_digits (d : Decimal.uint) :
  Str.all is_digit (NilEmpty.string_of_uint d) = true.
Proof. induction d; simpl; [reflexivity | assumption ..]. Qed.

Lemma Column_matches (n : nat) :
  matches_tag_regex ("Column" +:+ string_of_nat n) = true.
Proof.
  change ("Column" +:+ string_of_nat n)
    with (String "C" ("olumn" +:+ string_of_nat n)).
  simpl matches_tag_regex. rewrite StrFacts.all_app.
  unfold string_of_nat.
  rewrite (all_impl is_digit is_name_char _ digit_name_char (uint_digits _)).
  reflexivity.
Qed.

Lemma String_truthy (h : Cell) : truthy h = true → String_ h ≠ EmptyString.
Proof.
  destruct h as [s | z | b]; simpl.
  - destruct (String.eqb_spec s EmptyString); [discriminate | auto].
  - destruct z as [| p | p]; simpl; [discriminate | | discriminate].
    intros _. pose proof (Unsigned.to_uint_nonnil p) as Hp.
    destruct (Pos.to_uint p); [congruence | discriminate ..].
  - intros ->. discriminate.
Qed.

Lemma tagName_matches (headers : list Cell) (cellIndex : nat) :
  matches_tag_regex (tagName headers cellIndex) = true.
Proof.
  unfold tagName. destruct (headers !! cellIndex) as [h |].
  - destruct (truthy h) eqn:E; [| apply Column_matches].
    rewrite sanitizeTagName_matches.
    apply String_truthy in E.
    destruct (String.eqb_spec (String_ h) EmptyString); [contradiction | reflexivity].
  - apply Column_matches.
Qed.

(** ** The loops of the serializer *)

Lemma forEach_cells (headers row : list Cell) (i : nat) (xml : string) :
  forEach_from (emit_cell headers) row i xml
  = xml +:+ Str.cat (children_from headers i row).
Proof.
  revert i xml. induction row as [|cell row IH]; intros i xml; simpl.
  - now rewrite StrFacts.app_nil_r.
  - rewrite IH. unfold emit_cell. fold (cellXml headers i cell).
    now rewrite StrFacts.app_assoc.
Qed.

Lemma children_length (headers row : list Cell) (i : nat) :
  length (children_from headers i row) = length row.
Proof.
  revert i. induction row as [|cell row IH]; intros i; simpl; [reflexivity |].
  now rewrite IH.
Qed.

Lemma emit_row_appends (headers row : list Cell) (xml : string) :
  emit_row headers row xml = xml +:+ rowXml headers row.
Proof.
  unfold emit_row, rowXml, rowElement, forEach, children.
  destruct (existsb not_empty_string row).
  - rewrite forEach_cells. now rewrite !StrFacts.app_assoc.
  - now rewrite StrFacts.app_nil_r.
Qed.

Lemma not_empty_string_spec (cell : Cell) :
  not_empty_string cell = true ↔ cell ≠ CStr EmptyString.
Proof.
  destruct cell as [s | z | b]; simpl; [| split; [discriminate | reflexivity] ..].
  destruct (String.eqb_spec s EmptyString) as [-> | Hne]; simpl.
  - split; [discriminate | congruence].
  - split; [congruence | reflexivity].
Qed.

Lemma blank_spec (row : list Cell) :
  existsb not_empty_string row = false ↔ blank row.
Proof.
  unfold blank. induction row as [|cell row IH]; simpl.
  - split; [intros _ ? [] | reflexivity].
  - rewrite orb_false_iff, IH. split.
    + intros [Hc Hrow] x [<- | Hin]; [| now apply Hrow].
      destruct (decide (cell = CStr EmptyString)) as [E | N]; [assumption |].
      apply not_empty_string_spec in N. congruence.
    + intros H. split; [| intros x Hin; apply H; now right].
      rewrite (H cell) by now left. reflexivity.
Qed.

Lemma for_loop_rows (headers : list Cell) (data : list (list Cell))
    (n i : nat) (xml : string) :
  i + n ≤ length data →
  for_loop (λ i xml, match data !! i with
                     | Some row => Some (emit_row headers row xml)
                     | None => None
                     end) i n xml
  = Some (xml +:+ Str.cat (map (rowXml headers) (take n (drop i data)))).
Proof.
  revert i xml. induction n as [|n IH]; intros i xml Hle; simpl.
  - now rewrite StrFacts.app_nil_r.
  - destruct (data !! i) as [row |] eqn:Hrow.
    + rewrite (drop_S _ _ _ Hrow). simpl.
      rewrite IH by lia. rewrite emit_row_appends.
      now rewrite StrFacts.app_assoc.
    + apply lookup_ge_None in Hrow. lia.
Qed.

Lemma emit_rows_appends (headers : list Cell) (data : list (list Cell))
    (xml : string) :
  emit_rows headers data xml
  = Some (xml +:+ Str.cat (map (rowXml headers) (tail data))).
Proof.
  unfold emit_rows. destruct data as [|h rows].
  - simpl. now rewrite StrFacts.app_nil_r.
  - rewrite for_loop_rows by (simpl; lia).
    replace (length (h :: rows) - 1) with (length rows) by (simpl; lia).
    change (drop 1 (h :: rows)) with rows.
    now rewrite firstn_all.
Qed.

Lemma emit_sheet_appends (sheet : SheetData) (xml : string) :
  emit_sheet sheet xml = Some (xml +:+ sheetElement sheet).
Proof.
  unfold emit_sheet, sheetElement. fold (sheetOpen sheet). fold sheetClose.
  destruct (data sheet) as [|headers rows] eqn:Hdata; simpl.
  - now rewrite !StrFacts.app_assoc.
  - rewrite emit_rows_appends. simpl tail.
    now rewrite !StrFacts.app_assoc.
Qed.

Lemma emit_sheets_appends (selected : list SheetData) (xml : string) :
  emit_sheets selected xml = Some (xml +:+ Str.cat (map sheetElement selected)).
Proof.
  revert xml. induction selected as [|sheet rest IH]; intros xml; simpl.
  - now rewrite StrFacts.app_nil_r.
  - rewrite emit_sheet_appends, IH. now rewrite StrFacts.app_assoc.
Qed.

(** The index reads of the loops stay within bounds: the serializer hands
    over the prolog, the elements of the selected sheets and the closing
    tag. *)
Lemma buildXml_total (sheets : list SheetData) (selectedSheets : gset string) :
  buildXml sheets selectedSheets
  = Some (prolog
          +:+ Str.cat (map sheetElement (selectedSheetsArray sheets selectedSheets))
          +:+ "</Workbook>").
Proof.
  unfold buildXml. rewrite emit_sheets_appends.
  now rewrite StrFacts.app_assoc.
Qed.

Lemma children_lookup (headers row : list Cell) (k i : nat) (cell : Cell) :
  row !! i = Some cell →
  children_from headers k row !! i = Some (cellXml headers (k + i) cell).
Proof.
  revert k i. induction row as [|c row IH]; intros k i; [discriminate |].
  destruct i as [|i]; simpl.
  - intros [= ->]. now rewrite Nat.add_0_r.
  - intros H. replace (k + S i) with (S k + i) by lia. now apply IH.
Qed.

Lemma children_app (headers a b : list Cell) (k : nat) :
  children_from headers k (a ++ b)
  = children_from headers k a ++ children_from headers (k + length a) b.
Proof.
  revert k. induction a as [|c a IH]; intros k; simpl.
  - now rewrite Nat.add_0_r.
  - rewrite IH. now replace (S k + length a) with (k + S (length a)) by lia.
Qed.

Lemma text_not_empty (cell : Cell) :
  String_ cell = EmptyString ↔ cell = CStr EmptyString.
Proof.
  split; [| now intros ->].
  destruct cell as [s | z | b]; simpl.
  - now intros ->.
  - destruct z as [| p | p]; simpl; [discriminate | | discriminate].
    pose proof (Unsigned.to_uint_nonnil p) as Hp.
    destruct (Pos.to_uint p); [congruence | discriminate ..].
  - destruct b; discriminate.
Qed.

(** ** The scenarios of the specification, run on the model *)

Example scenario_escaped_cell :
  emit_cell [CStr "A&B"] (CStr "x<y") 0 EmptyString
  = "      <A_B>x&lt;y</A_B>" +:+ nl.
Proof. reflexivity. Qed.

Example scenario_blank_row_skipped :
  buildXml
    [mkSheet "Sheet1"
       [[CStr "Name"; CStr "Age"];
        [CStr "Alice"; CStr "30"];
        [CStr EmptyString; CStr EmptyString]]]
    {[ "Sheet1" ]}
  = Some (prolog
          +:+ "  <Sheet name=" +:+ q +:+ "Sheet1" +:+ q +:+ ">" +:+ nl
          +:+ "    <Row>" +:+ nl
          +:+ "      <Name>Alice</Name>" +:+ nl
          +:+ "      <Age>30</Age>" +:+ nl
          +:+ "    </Row>" +:+ nl
          +:+ "  </Sheet>" +:+ nl
          +:+ "</Workbook>").
Proof. vm_compute. reflexivity. Qed.

Example scenario_extensions :
  matches_extension "report.txt" = false
  ∧ matches_extension "Book.XLSX" = true
  ∧ matches_extension "data.csv" = true
  ∧ matches_extension "old.xls.bak" = false.
Proof. repeat split; reflexivity. Qed.

(** * The claims *)

(** C2. [escapeXml] applies the five substitutions in the order ampersand,
    less-than, greater-than, double quote, apostrophe.  The result is the
    text with every special character replaced by its entity in one pass, so
    no ampersand written by a substitution is escaped again; for an input
    that holds the special character [c], the result holds the entity of
    [c], no raw special character is left in it (every ampersand starts an
    entity), and [c] itself, unless it is the ampersand, does not occur. *)
Theorem escapeXml_replaces_specials (s : string) (c : ascii) :
  In c special →
  Str.mem c s = true →
  escapeXml s
  = Str.replaceAll (Ascii.eqb "'") "&apos;"
      (Str.replaceAll (Ascii.eqb dquote) "&quot;"
        (Str.replaceAll (Ascii.eqb ">") "&gt;"
          (Str.replaceAll (Ascii.eqb "<") "&lt;"
            (Str.replaceAll (Ascii.eqb "&") "&amp;" s))))
  ∧ escapeXml s = flat entity s
  ∧ Str.occurs (entity c) (escapeXml s)
  ∧ escaped (escapeXml s) = true
  ∧ (c ≠ "&"%char → Str.mem c (escapeXml s) = false).
Proof.
  intros Hc Hmem.
  split; [reflexivity |].
  split; [apply escapeXml_flat |].
  rewrite escapeXml_flat.
  split; [now apply entity_occurs |].
  split; [apply escaped_flat |].
  intros Hamp. apply escaped_no_raw; [apply escaped_flat | assumption ..].
Qed.

(** The text [a<b] holds the special character [<]. *)
Lemma escapeXml_replaces_specials_witness :
  In "<"%char special
  ∧ Str.mem "<" "a<b" = true
  ∧ Str.occurs (entity "<") (escapeXml "a<b")
  ∧ escaped (escapeXml "a<b") = true.
Proof.
  assert (H1 : In "<"%char special) by (simpl; tauto).
  assert (H2 : Str.mem "<" "a<b" = true) by reflexivity.
  pose proof (escapeXml_replaces_specials "a<b" "<" H1 H2) as (_ & _ & H3 & H4 & _).
  exact (conj H1 (conj H2 (conj H3 H4))).
Defined.

(** C3. The tag name derived for a column matches
    [^[A-Za-z_][A-Za-z0-9_-]*$]: whatever the header row holds at the
    column, and in particular for a header string [header], sanitized when
    it is not empty and replaced by [Column<N>] when it is.  Sanitization
    keeps the length of the string, so a header that is not empty is never
    sanitized to the empty string: the sanitized text matches the
    expression exactly when the header is not empty. *)
Theorem tag_name_well_formed (headers : list Cell) (cellIndex : nat)
    (header : string) :
  matches_tag_regex (tagName headers cellIndex) = true
  ∧ matches_tag_regex
      (if String.eqb header EmptyString
       then "Column" +:+ string_of_nat (cellIndex + 1)
       else sanitizeTagName header) = true
  ∧ tagName [CStr header] 0
    = (if String.eqb header EmptyString
       then "Column" +:+ string_of_nat 1
       else sanitizeTagName header)
  ∧ String.length (sanitizeTagName header) = String.length header
  ∧ matches_tag_regex (sanitizeTagName header)
    = negb (String.eqb header EmptyString).
Proof.
  split; [apply tagName_matches |].
  split.
  { destruct (String.eqb header EmptyString) eqn:E; [apply Column_matches |].
    now rewrite sanitizeTagName_matches, E. }
  split.
  { unfold tagName. simpl.
    now destruct (String.eqb header EmptyString). }
  split; [apply sanitizeTagName_length | apply sanitizeTagName_matches].
Qed.

(** C9. [sanitizeTagName] is idempotent. *)
Theorem sanitizeTagName_idempotent (s : string) :
  sanitizeTagName (sanitizeTagName s) = sanitizeTagName s.
Proof.
  destruct (String.eqb s EmptyString) eqn:E.
  - apply String.eqb_eq in E as ->. reflexivity.
  - apply sanitizeTagName_fixed. now rewrite sanitizeTagName_matches, E.
Qed.

Lemma Forall2_map_graph {A B : Type} (R : A → B → Prop) (f : A → B) (l : list A) :
  (∀ x, R x (f x)) → Forall2 R l (map f l).
Proof. intros H. induction l; simpl; constructor; auto. Qed.

Lemma rowXml_cases (headers row : list Cell) :
  (blank row ∧ rowXml headers row = EmptyString)
  ∨ (¬ blank row ∧ rowXml headers row = rowElement (children headers row)).
Proof.
  unfold rowXml. destruct (existsb not_empty_string row) eqn:E.
  - right. split; [| reflexivity].
    intros Hb. apply blank_spec in Hb. congruence.
  - left. split; [now apply blank_spec | reflexivity].
Qed.

(** C4. In the element of a sheet every data row (every row after the
    header row) contributes one piece of text, in order: nothing when each
    of its cells is the empty string (a row without cells included), and
    otherwise a [<Row>] element with one child element per cell, the child
    of the cell at column [i] being the element of that cell.  A cell is the
    empty string exactly when its text is empty. *)
Theorem data_rows_emitted (sheet : SheetData) (xml : string) :
  (∃ pieces : list string,
      emit_sheet sheet xml
      = Some (xml +:+ sheetOpen sheet +:+ Str.cat pieces +:+ sheetClose)
      ∧ Forall2
          (λ row piece,
             (blank row ∧ piece = EmptyString)
             ∨ (¬ blank row
                ∧ ∃ kids : list string,
                    piece = rowElement kids
                    ∧ length kids = length row
                    ∧ ∀ i cell, row !! i = Some cell →
                        kids !! i
                        = Some (cellXml (hd [] (data sheet)) i cell)))
          (tail (data sheet)) pieces)
  ∧ (∀ row, blank row ↔ ∀ cell, In cell row → String_ cell = EmptyString)
  ∧ (∀ headers row,
        emit_row headers row xml = xml ↔ blank row).
Proof.
  split; [| split].
  - exists (map (rowXml (hd [] (data sheet))) (tail (data sheet))).
    split; [apply emit_sheet_appends |].
    apply Forall2_map_graph. intros row.
    destruct (rowXml_cases (hd [] (data sheet)) row) as [[Hb ->] | [Hb ->]].
    + now left.
    + right. split; [assumption |].
      exists (children (hd [] (data sheet)) row).
      split; [reflexivity |]. split; [apply children_length |].
      intros i cell Hi. apply (children_lookup _ _ 0 _ _ Hi).
  - intros row. unfold blank. split; intros H cell Hin.
    + now rewrite (H cell Hin).
    + now apply text_not_empty, H.
  - intros headers row. rewrite emit_row_appends.
    destruct (rowXml_cases headers row) as [[Hb ->] | [Hb ->]].
    + rewrite StrFacts.app_nil_r. tauto.
    + split; [| contradiction].
      intros H. exfalso.
      apply (f_equal String.length) in H.
      rewrite StrFacts.length_app in H. unfold rowElement in H.
      rewrite !StrFacts.length_app in H. simpl in H. lia.
Qed.

(** C10. A selected sheet without rows, or with a header row only, is not
    an error: its element is the opening tag directly followed by the
    closing tag, and the conversion completes with a document holding that
    element. *)
Theorem header_only_sheet_is_empty_element (st : State) (sheet : SheetData) :
  In sheet (sheets st) →
  name sheet ∈ selectedSheets st →
  length (data sheet) ≤ 1 →
  (∀ xml, emit_sheet sheet xml
          = Some (xml +:+ sheetOpen sheet +:+ sheetClose))
  ∧ ∃ doc,
      convertToXml st
      = ({| file := file st; sheets := sheets st;
            selectedSheets := selectedSheets st;
            xmlOutput := doc; processing := false |},
         [EToast (ConversionComplete (size (selectedSheets st)))])
      ∧ Str.occurs (sheetOpen sheet +:+ sheetClose) doc.
Proof.
  intros Hin Hsel Hlen.
  assert (Hel : sheetElement sheet = sheetOpen sheet +:+ sheetClose).
  { unfold sheetElement.
    destruct (data sheet) as [|h [|r rows]]; simpl in *; [reflexivity .. | lia]. }
  split.
  { intros xml. now rewrite emit_sheet_appends, Hel. }
  exists (prolog
          +:+ Str.cat (map sheetElement
                         (selectedSheetsArray (sheets st) (selectedSheets st)))
          +:+ "</Workbook>").
  split.
  - unfold convertToXml. rewrite buildXml_total.
    destruct (sheets st) as [|s0 rest] eqn:Hsheets; [contradiction |].
    destruct (size (selectedSheets st)) as [|n] eqn:Hsize; [| reflexivity].
    apply size_empty_inv in Hsize. rewrite Hsize in Hsel.
    now apply not_elem_of_empty in Hsel.
  - apply StrFacts.occurs_later, StrFacts.occurs_earlier.
    rewrite <- Hel. apply StrFacts.occurs_cat.
    apply list_elem_of_In. unfold selectedSheetsArray.
    apply list_elem_of_filter. split; [assumption | now apply list_elem_of_In].
Qed.

(** One selected sheet that holds its header row only. *)
Lemma header_only_sheet_is_empty_element_witness :
  let sheet := mkSheet "Sheet1" [[CStr "Name"; CStr "Age"]] in
  let st := {| file := None; sheets := [sheet];
               selectedSheets := {[ "Sheet1" ]};
               xmlOutput := EmptyString; processing := false |} in
  In sheet (sheets st)
  ∧ name sheet ∈ selectedSheets st
  ∧ length (data sheet) ≤ 1
  ∧ emit_sheet sheet prolog
    = Some (prolog +:+ sheetOpen sheet +:+ sheetClose).
Proof.
  intros sheet st.
  assert (H1 : In sheet (sheets st)) by (simpl; tauto).
  assert (H2 : name sheet ∈ selectedSheets st).
  { change ("Sheet1" ∈ ({[ "Sheet1" ]} : gset string)).
    apply (bool_decide_unpack _). vm_compute. exact I. }
  assert (H3 : length (data sheet) ≤ 1) by (simpl; lia).
  pose proof (header_only_sheet_is_empty_element st sheet H1 H2 H3) as [H4 _].
  exact (conj H1 (conj H2 (conj H3 (H4 prolog)))).
Defined.

Lemma selected_names (sheets : list SheetData) (selectedSheets : gset string) :
  name <$> selectedSheetsArray sheets selectedSheets
  = filter (λ n, n ∈ selectedSheets) (name <$> sheets).
Proof.
  unfold selectedSheetsArray. induction sheets as [|s l IH]; [reflexivity |].
  rewrite fmap_cons, !filter_cons. simpl.
  destruct (decide (name s ∈ selectedSheets)); rewrite ?fmap_cons, IH; reflexivity.
Qed.

(** C5. When the sheets carry pairwise distinct names and every selected
    name is the name of a sheet, the document is the prolog, one [<Sheet>]
    element for each sheet of a list [chosen], and the closing tag, where
    [chosen] is a sublist of the sheets (so their order is kept), holds as
    many sheets as there are selected names, and the names of its sheets are
    the selected names, each once.  With a selection that is not empty,
    that document is the output of the conversion. *)
Theorem one_sheet_element_per_selected_name (st : State) :
  NoDup (name <$> sheets st) →
  selectedSheets st ⊆ list_to_set (name <$> sheets st) →
  ∃ chosen : list SheetData,
    buildXml (sheets st) (selectedSheets st)
    = Some (prolog +:+ Str.cat (map sheetElement chosen) +:+ "</Workbook>")
    ∧ (selectedSheets st ≠ ∅ →
       convertToXml st
       = ({| file := file st; sheets := sheets st;
             selectedSheets := selectedSheets st;
             xmlOutput := prolog +:+ Str.cat (map sheetElement chosen)
                          +:+ "</Workbook>";
             processing := false |},
          [EToast (ConversionComplete (length chosen))]))
    ∧ sublist chosen (sheets st)
    ∧ length chosen = size (selectedSheets st)
    ∧ NoDup (name <$> chosen)
    ∧ ∀ n, n ∈ selectedSheets st ↔ n ∈ name <$> chosen.
Proof.
  intros Hdup Hsub.
  set (chosen := selectedSheetsArray (sheets st) (selectedSheets st)).
  assert (Hsl : sublist chosen (sheets st)) by apply sublist_filter.
  assert (Hnd : NoDup (name <$> chosen)).
  { eapply sublist_NoDup; [exact Hdup |]. now apply fmap_sublist. }
  assert (Hiff : ∀ n, n ∈ selectedSheets st ↔ n ∈ name <$> chosen).
  { intros n. unfold chosen. rewrite selected_names, list_elem_of_filter.
    split; [| tauto]. intros Hn. split; [assumption |].
    apply Hsub in Hn. now apply elem_of_list_to_set in Hn. }
  assert (Hlen : length chosen = size (selectedSheets st)).
  { rewrite <- (length_fmap name chosen).
    rewrite <- (size_list_to_set (C := gset string) _ Hnd).
    f_equal. apply set_eq. intros n. rewrite elem_of_list_to_set.
    symmetry. apply Hiff. }
  exists chosen.
  split; [apply buildXml_total |].
  split; [| auto].
  intros Hne. unfold convertToXml. rewrite buildXml_total. fold chosen.
  rewrite Hlen.
  destruct (size (selectedSheets st)) as [|k] eqn:Hsize.
  { apply size_empty_inv in Hsize. apply leibniz_equiv in Hsize. contradiction. }
  destruct (sheets st) as [|s0 rest] eqn:Hsheets; [| reflexivity].
  subst chosen. simpl in Hlen. lia.
Qed.

(** Three sheets, the first and the last selected. *)
Lemma one_sheet_element_per_selected_name_witness :
  let a := mkSheet "A" [[CStr "h"]; [CStr "1"]] in
  let b := mkSheet "B" [] in
  let c := mkSheet "C" [[CStr "k"]] in
  let st := {| file := None; sheets := [a; b; c];
               selectedSheets := {[ "A"; "C" ]};
               xmlOutput := EmptyString; processing := false |} in
  NoDup (name <$> sheets st)
  ∧ selectedSheets st ⊆ list_to_set (name <$> sheets st)
  ∧ ∃ chosen : list SheetData,
      buildXml (sheets st) (selectedSheets st)
      = Some (prolog +:+ Str.cat (map sheetElement chosen) +:+ "</Workbook>")
      ∧ sublist chosen (sheets st)
      ∧ length chosen = size (selectedSheets st).
Proof.
  intros a b c st.
  assert (H1 : NoDup (name <$> sheets st)).
  { change (NoDup ["A"; "B"; "C"]).
    apply (bool_decide_unpack _). vm_compute. exact I. }
  assert (H2 : selectedSheets st ⊆ list_to_set (name <$> sheets st)).
  { change (({[ "A"; "C" ]} : gset string) ⊆ list_to_set ["A"; "B"; "C"]).
    apply (bool_decide_unpack _). vm_compute. exact I. }
  destruct (one_sheet_element_per_selected_name st H1 H2)
    as (chosen & Hx & _ & Hs & Hl & _).
  exact (conj H1 (conj H2 (ex_intro _ chosen (conj Hx (conj Hs Hl))))).
Defined.

Lemma tagName_cases (headers : list Cell) (cellIndex : nat) :
  tagName headers cellIndex
  = match headers !! cellIndex with
    | Some (CStr h) =>
        if String.eqb h EmptyString
        then "Column" +:+ string_of_nat (cellIndex + 1)
        else sanitizeTagName h
    | Some (CNum z) =>
        if (z =? 0)%Z
        then "Column" +:+ string_of_nat (cellIndex + 1)
        else sanitizeTagName (String_ (CNum z))
    | Some (CBool b) =>
        if b then "true" else "Column" +:+ string_of_nat (cellIndex + 1)
    | None => "Column" +:+ string_of_nat (cellIndex + 1)
    end.
Proof.
  unfold tagName.
  destruct (headers !! cellIndex) as [[h | z | [|]] |]; try reflexivity.
  - simpl. now destruct (String.eqb h EmptyString).
  - unfold truthy. now destruct (z =? 0)%Z.
Qed.







(** C6.  A header cell that holds the number zero is neither the empty
    string nor absent, and its text sanitizes to an underscore; the code
    names the cell below it [Column1]. *)
Theorem zero_header_gets_column_name :
  let headers := [CNum 0] in
  headers !! 0%nat = Some (CNum 0)
  ∧ String_ (CNum 0) = "0"
  ∧ sanitizeTagName (String_ (CNum 0)) = "_"
  ∧ tagName headers 0 = "Column1"
  ∧ emit_row headers [CStr "x"] EmptyString
    = "    <Row>" +:+ nl +:+ "      <Column1>x</Column1>" +:+ nl
      +:+ "    </Row>" +:+ nl.
Proof. repeat split; reflexivity. Qed.

(** ** The upload guard *)

Lemma endsWith_spec (suf s : string) :
  Str.endsWith suf s = true ↔ ∃ pre, s = pre +:+ suf.
Proof.
  induction s as [|c s IH].
  - change (Str.endsWith suf EmptyString)
      with (String.eqb EmptyString suf || false).
    rewrite orb_false_r. split.
    + intros H. apply String.eqb_eq in H. now exists EmptyString.
    + intros ([|d pre] & H); [| discriminate].
      apply String.eqb_eq. exact H.
  - change (Str.endsWith suf (String c s))
      with (String.eqb (String c s) suf || Str.endsWith suf s).
    rewrite orb_true_iff, IH. split.
    + intros [H | (pre & ->)].
      * apply String.eqb_eq in H. now exists EmptyString.
      * now exists (String c pre).
    + intros ([|d pre] & H).
      * left. apply String.eqb_eq. exact H.
      * right. exists pre. now injection H.
Qed.

Lemma lowercase_app (a b : string) :
  Str.lowercase (a +:+ b) = Str.lowercase a +:+ Str.lowercase b.
Proof.
  induction a as [|c a IH]; [reflexivity |].
  rewrite StrFacts.app_cons. simpl. now rewrite IH.
Qed.

Lemma lowercase_length (s : string) :
  String.length (Str.lowercase s) = String.length s.
Proof. induction s as [|c s IH]; simpl; [reflexivity | now rewrite IH]. Qed.

Lemma app_split_length (a b a' b' : string) :
  a +:+ b = a' +:+ b' → String.length b = String.length b' → a = a' ∧ b = b'.
Proof.
  revert a'. induction a as [|c a IH]; intros [|c' a'] H Hlen.
  - now split.
  - exfalso. rewrite StrFacts.app_nil_l in H. subst b.
    rewrite StrFacts.app_cons in Hlen. simpl in Hlen.
    rewrite StrFacts.length_app in Hlen. lia.
  - exfalso. rewrite StrFacts.app_nil_l in H. subst b'.
    rewrite StrFacts.app_cons in Hlen. simpl in Hlen.
    rewrite StrFacts.length_app in Hlen. lia.
  - rewrite !StrFacts.app_cons in H. injection H as -> H.
    destruct (IH a' H Hlen) as [-> ->]. now split.
Qed.

(** The name matches [/\.(xlsx|xls|csv)$/i] exactly when it ends with one of
    the three extensions, in whatever case. *)
Lemma matches_extension_spec (name : string) :
  matches_extension name = true
  ↔ ∃ stem ext, name = stem +:+ ext
                ∧ In (Str.lowercase ext) [".xlsx"; ".xls"; ".csv"].
Proof.
  unfold matches_extension. rewrite existsb_exists. split.
  - intros (e & He & Hend). apply endsWith_spec in Hend as (pre & Hpre).
    assert (Hle : String.length e ≤ String.length name).
    { rewrite <- (lowercase_length name), Hpre, StrFacts.length_app. lia. }
    assert (Hsplit : ∃ stem ext, name = stem +:+ ext
                                 ∧ String.length ext = String.length e).
    { clear -Hle. revert Hle. generalize (String.length e) as k.
      induction name as [|c name IH]; intros k Hk.
      - exists EmptyString, EmptyString. split; [reflexivity |]. simpl in *. lia.
      - destruct (decide (k = String.length (String c name))) as [-> | Hne].
        + now exists EmptyString, (String c name).
        + destruct (IH k) as (stem & ext & -> & Hlen); [simpl in *; lia |].
          now exists (String c stem), ext. }
    destruct Hsplit as (stem & ext & -> & Hlen).
    exists stem, ext. split; [reflexivity |].
    rewrite lowercase_app in Hpre.
    apply app_split_length in Hpre as [_ ->]; [exact He |].
    now rewrite lowercase_length.
  - intros (stem & ext & -> & Hin).
    exists (Str.lowercase ext). split; [exact Hin |].
    apply endsWith_spec. exists (Str.lowercase stem). apply lowercase_app.
Qed.

Lemma includes_spec (xs : list string) (t : string) :
  includes xs t = true ↔ In t xs.
Proof.
  unfold includes. rewrite existsb_exists. split.
  - intros (x & Hin & Heq). apply String.eqb_eq in Heq. now subst.
  - intros Hin. exists t. split; [assumption | apply String.eqb_refl].
Qed.

(** C8.  A file whose type is none of the accepted types and whose name
    does not end with [.xlsx], [.xls] or [.csv] (in whatever case) is
    turned down with [UnsupportedFormat]: whatever the spreadsheet reader
    is, the handler leaves the state as it was, reports that one error, and
    does not call the reader. *)
Theorem unsupported_file_is_rejected
    (XLSX_read : list Byte.byte → option (list SheetData))
    (f : File) (st : State) :
  ¬ In (file_type f) validTypes →
  (∀ stem ext, file_name f = stem +:+ ext →
               ¬ In (Str.lowercase ext) [".xlsx"; ".xls"; ".csv"]) →
  handleFileUpload XLSX_read (Some f) st = (st, [EToast UnsupportedFormat])
  ∧ ∀ bytes, ¬ In (EXlsxRead bytes) (snd (handleFileUpload XLSX_read (Some f) st)).
Proof.
  intros Htype Hname.
  assert (H1 : includes validTypes (file_type f) = false).
  { apply not_true_is_false. now rewrite includes_spec. }
  assert (H2 : matches_extension (file_name f) = false).
  { apply not_true_is_false. rewrite matches_extension_spec.
    intros (stem & ext & Heq & Hin). exact (Hname stem ext Heq Hin). }
  assert (Hrun : handleFileUpload XLSX_read (Some f) st
                 = (st, [EToast UnsupportedFormat])).
  { unfold handleFileUpload. now rewrite H1, H2. }
  split; [exact Hrun |].
  intros bytes. rewrite Hrun. simpl. intros [H | []]. discriminate.
Qed.

(** The file [report.txt] of type [text/plain]. *)
Lemma unsupported_file_is_rejected_witness :
  let f := mkFile "report.txt" "text/plain" (Some []) in
  ¬ In (file_type f) validTypes
  ∧ (∀ stem ext, file_name f = stem +:+ ext →
                 ¬ In (Str.lowercase ext) [".xlsx"; ".xls"; ".csv"])
  ∧ handleFileUpload (λ _, None) (Some f) initial
    = (initial, [EToast UnsupportedFormat]).
Proof.
  intros f.
  assert (H1 : ¬ In (file_type f) validTypes).
  { intros H. apply includes_spec in H. vm_compute in H. discriminate. }
  assert (H2 : ∀ stem ext, file_name f = stem +:+ ext →
                 ¬ In (Str.lowercase ext) [".xlsx"; ".xls"; ".csv"]).
  { intros stem ext Heq Hin.
    assert (H : matches_extension (file_name f) = true).
    { apply matches_extension_spec. exists stem, ext. now split. }
    vm_compute in H. discriminate. }
  exact (conj H1 (conj H2
           (proj1 (unsupported_file_is_rejected (λ _, None) f initial H1 H2)))).
Defined.

(** ** The guard of the conversion *)

(** The guard of [convertToXml]: the conversion fails with
    [EmptySelection], leaving the state as it was, exactly when the
    selection is empty or no sheet is loaded. *)
Lemma conversion_fails_iff_nothing_to_convert (st : State) :
  selectedSheets st = ∅ ∨ sheets st = []
  ↔ convertToXml st = (st, [EToast EmptySelection]).
Proof.
  unfold convertToXml. rewrite buildXml_total.
  destruct (sheets st) as [|s0 rest] eqn:Hsheets; simpl.
  { split; [reflexivity | now right]. }
  destruct (size (selectedSheets st)) as [|k] eqn:Hsize; simpl.
  - apply size_empty_inv, leibniz_equiv in Hsize.
    split; [reflexivity | now left].
  - split.
    + intros [Hempty | Hnil]; [| discriminate].
      rewrite Hempty, size_empty in Hsize. discriminate.
    + intros H. apply (f_equal snd) in H. discriminate.
Qed.

(** * Further properties of the code *)

(** ** [escapeXml] *)

Lemma entity_cases (c : ascii) :
  (In c special
   ∧ ∃ tail, entity c = String "&" tail ∧ 2 ≤ String.length tail
             ∧ String.length tail ≤ 5)
  ∨ (¬ In c special ∧ c ≠ "&"%char ∧ entity c = String c EmptyString).
Proof.
  unfold entity, special.
  destruct (Ascii.eqb_spec c "&") as [-> | H1].
  { left. split; [simpl; tauto |]. eexists. split; [reflexivity |]. simpl. lia. }
  destruct (Ascii.eqb_spec c "<") as [-> | H2].
  { left. split; [simpl; tauto |]. eexists. split; [reflexivity |]. simpl. lia. }
  destruct (Ascii.eqb_spec c ">") as [-> | H3].
  { left. split; [simpl; tauto |]. eexists. split; [reflexivity |]. simpl. lia. }
  destruct (Ascii.eqb_spec c dquote) as [-> | H4].
  { left. split; [simpl; tauto |]. eexists. split; [reflexivity |]. simpl. lia. }
  destruct (Ascii.eqb_spec c "'") as [-> | H5].
  { left. split; [simpl; tauto |]. eexists. split; [reflexivity |]. simpl. lia. }
  right. split; [| split; [assumption | reflexivity]].
  simpl. intros [H | [H | [H | [H | [H | []]]]]]; congruence.
Qed.

Lemma flat_cons (f : ascii → string) (c : ascii) (s : string) :
  flat f (String c s) = f c +:+ flat f s.
Proof. reflexivity. Qed.

Lemma mem_cons (c d : ascii) (s : string) :
  Str.mem c (String d s) = Ascii.eqb c d || Str.mem c s.
Proof. reflexivity. Qed.

Lemma escapeXml_length_exact (s : string) :
  String.length s ≤ String.length (flat entity s)
  ∧ String.length (flat entity s) ≤ 6 * String.length s
  ∧ (String.length (flat entity s) = String.length s →
     ∀ c, In c special → Str.mem c s = false).
Proof.
  induction s as [|d s (IH1 & IH2 & IH3)].
  - simpl. repeat split; auto; lia.
  - rewrite flat_cons, StrFacts.length_app.
    destruct (entity_cases d) as [(Hd & tail & -> & Hlo & Hhi) | (Hd & _ & ->)];
      simpl String.length.
    + repeat split; try lia.
    + repeat split; try lia.
      intros Hlen c Hc. rewrite mem_cons.
      rewrite IH3 by (try assumption; lia).
      rewrite orb_false_r. apply ascii_eqb_false. congruence.
Qed.

Lemma flat_entity_plain (s : string) :
  (∀ c, In c special → Str.mem c s = false) → flat entity s = s.
Proof.
  induction s as [|d s IH]; [reflexivity |].
  intros H. rewrite flat_cons.
  assert (Hd : ¬ In d special).
  { intros Hin. specialize (H d Hin). rewrite mem_cons, Ascii.eqb_refl in H.
    discriminate. }
  destruct (entity_cases d) as [[Hin _] | (_ & _ & ->)]; [contradiction |].
  rewrite StrFacts.app_cons, StrFacts.app_nil_l. f_equal.
  apply IH. intros c Hc. specialize (H c Hc). rewrite mem_cons in H.
  now apply orb_false_elim in H as [_ H].
Qed.

Lemma entity_app_inj (c d : ascii) (a b : string) :
  entity c +:+ a = entity d +:+ b → c = d ∧ a = b.
Proof.
  unfold entity.
  destruct (Ascii.eqb_spec c "&") as [-> | C1];
  [| destruct (Ascii.eqb_spec c "<") as [-> | C2];
  [| destruct (Ascii.eqb_spec c ">") as [-> | C3];
  [| destruct (Ascii.eqb_spec c dquote) as [-> | C4];
  [| destruct (Ascii.eqb_spec c "'") as [-> | C5]]]]];
  (destruct (Ascii.eqb_spec d "&") as [-> | D1];
  [| destruct (Ascii.eqb_spec d "<") as [-> | D2];
  [| destruct (Ascii.eqb_spec d ">") as [-> | D3];
  [| destruct (Ascii.eqb_spec d dquote) as [-> | D4];
  [| destruct (Ascii.eqb_spec d "'") as [-> | D5]]]]]);
  repeat rewrite StrFacts.app_cons; rewrite ?StrFacts.app_nil_l;
  intros H; try discriminate H;
  try (injection H as H; try congruence; subst; now split).
Qed.

(** X1. [escapeXml] loses nothing: two texts with the same escaped form are
    the same text. *)
Theorem escapeXml_injective (s t : string) :
  escapeXml s = escapeXml t → s = t.
Proof.
  rewrite !escapeXml_flat. revert t.
  induction s as [|c s IH]; intros [|d t] H.
  - reflexivity.
  - exfalso. apply (f_equal String.length) in H. revert H.
    rewrite flat_cons, StrFacts.length_app.
    destruct (entity_cases d) as [(_ & tl & -> & _) | (_ & _ & ->)];
      simpl; lia.
  - exfalso. apply (f_equal String.length) in H. revert H.
    rewrite flat_cons, StrFacts.length_app.
    destruct (entity_cases c) as [(_ & tl & -> & _) | (_ & _ & ->)];
      simpl; lia.
  - rewrite !flat_cons in H. apply entity_app_inj in H as [-> H].
    f_equal. now apply IH.
Qed.

Lemma escapeXml_injective_witness :
  escapeXml "a&b" = escapeXml "a&b" ∧ "a&b" = "a&b".
Proof.
  assert (H : escapeXml "a&b" = escapeXml "a&b") by reflexivity.
  exact (conj H (escapeXml_injective "a&b" "a&b" H)).
Defined.

(** X2. [escapeXml] returns its argument unchanged exactly when the
    argument holds none of the five special characters. *)
Theorem escapeXml_unchanged_iff (s : string) :
  escapeXml s = s ↔ ∀ c, In c special → Str.mem c s = false.
Proof.
  rewrite escapeXml_flat. split.
  - intros H. apply escapeXml_length_exact. now rewrite H.
  - apply flat_entity_plain.
Qed.

(** X3. The escaped text is at least as long as the text and at most six
    times as long. *)
Theorem escapeXml_length (s : string) :
  String.length s ≤ String.length (escapeXml s)
  ∧ String.length (escapeXml s) ≤ 6 * String.length s.
Proof.
  rewrite escapeXml_flat.
  destruct (escapeXml_length_exact s) as (H1 & H2 & _). now split.
Qed.

(** X4. Escaping a concatenation is concatenating the escaped parts. *)
Theorem escapeXml_concat (a b : string) :
  escapeXml (a +:+ b) = escapeXml a +:+ escapeXml b.
Proof. apply escapeXml_app. Qed.

(** ** [sanitizeTagName] *)

(** X5. [sanitizeTagName] returns its argument unchanged exactly when the
    argument is empty or already matches [^[A-Za-z_][A-Za-z0-9_-]*$]. *)
Theorem sanitizeTagName_unchanged_iff (s : string) :
  sanitizeTagName s = s ↔ s = EmptyString ∨ matches_tag_regex s = true.
Proof.
  split.
  - intros H. destruct (String.eqb_spec s EmptyString) as [-> | Hne]; [now left |].
    right. rewrite <- H, sanitizeTagName_matches.
    now destruct (String.eqb_spec s EmptyString).
  - intros [-> | H]; [reflexivity | now apply sanitizeTagName_fixed].
Qed.

(** ** [toggleSheet] *)

(** X6. Toggling the same sheet twice gives the state back. *)
Theorem toggleSheet_twice (sheetName : string) (st : State) :
  toggleSheet sheetName (toggleSheet sheetName st) = st.
Proof.
  destruct st as [f sh sel out pr]. unfold toggleSheet. simpl. f_equal.
  destruct (decide (sheetName ∈ sel)) as [Hin | Hout].
  - rewrite decide_False by set_solver.
    apply set_eq. intros x. rewrite elem_of_union, elem_of_difference,
      elem_of_singleton.
    destruct (decide (x = sheetName)) as [-> | Hne]; tauto.
  - rewrite decide_True by set_solver.
    apply set_eq. intros x. rewrite elem_of_difference, elem_of_union,
      elem_of_singleton.
    destruct (decide (x = sheetName)) as [-> | Hne]; tauto.
Qed.

(** X7. Toggling a sheet flips whether that sheet is selected and keeps
    whether any other sheet is; the file, the sheets and the output stay. *)
Theorem toggleSheet_flips (sheetName other : string) (st : State) :
  (sheetName ∈ selectedSheets (toggleSheet sheetName st)
   ↔ sheetName ∉ selectedSheets st)
  ∧ (other ≠ sheetName →
     (other ∈ selectedSheets (toggleSheet sheetName st)
      ↔ other ∈ selectedSheets st))
  ∧ file (toggleSheet sheetName st) = file st
  ∧ sheets (toggleSheet sheetName st) = sheets st
  ∧ xmlOutput (toggleSheet sheetName st) = xmlOutput st.
Proof.
  unfold toggleSheet. simpl.
  destruct (decide (sheetName ∈ selectedSheets st)) as [Hin | Hout].
  - repeat split; auto; try set_solver.
  - repeat split; auto; try set_solver.
Qed.

(** X8. Toggling changes the number of selected sheets by exactly one: one
    less when the sheet was selected, one more when it was not. *)
Theorem toggleSheet_size (sheetName : string) (st : State) :
  size (selectedSheets (toggleSheet sheetName st))
  = if decide (sheetName ∈ selectedSheets st)
    then size (selectedSheets st) - 1
    else size (selectedSheets st) + 1.
Proof.
  unfold toggleSheet. simpl.
  destruct (decide (sheetName ∈ selectedSheets st)) as [Hin | Hout].
  - rewrite size_difference by set_solver. now rewrite size_singleton.
  - rewrite size_union by set_solver. now rewrite size_singleton.
Qed.

Lemma filter_filter_sheets (P Q : SheetData → Prop)
    `{∀ x, Decision (P x)} `{∀ x, Decision (Q x)} (l : list SheetData) :
  filter P (filter Q l) = filter (λ x, P x ∧ Q x) l.
Proof.
  induction l as [|x l IH]; [reflexivity |].
  rewrite !filter_cons.
  destruct (decide (Q x)) as [HQ | HQ].
  - rewrite filter_cons.
    destruct (decide (P x)) as [HP | HP].
    + rewrite decide_True by tauto. now rewrite IH.
    + rewrite decide_False by tauto. apply IH.
  - rewrite decide_False by tauto. apply IH.
Qed.

(** X9. Deselecting a selected sheet removes the sheets of that name, and
    nothing else, from the sheets that are serialized; the others keep their
    order. *)
Theorem toggleSheet_deselects (sheetName : string) (st : State) :
  sheetName ∈ selectedSheets st →
  selectedSheetsArray (sheets (toggleSheet sheetName st))
    (selectedSheets (toggleSheet sheetName st))
  = filter (λ s, name s ≠ sheetName)
      (selectedSheetsArray (sheets st) (selectedSheets st)).
Proof.
  intros Hin. unfold toggleSheet, selectedSheetsArray. simpl.
  rewrite decide_True by assumption.
  rewrite filter_filter_sheets.
  apply list_filter_iff. intros s. set_solver.
Qed.

Lemma toggleSheet_deselects_witness :
  let a := mkSheet "A" [] in
  let b := mkSheet "B" [] in
  let st := {| file := None; sheets := [a; b];
               selectedSheets := {[ "A"; "B" ]};
               xmlOutput := EmptyString; processing := false |} in
  "A" ∈ selectedSheets st
  ∧ selectedSheetsArray (sheets (toggleSheet "A" st))
      (selectedSheets (toggleSheet "A" st))
    = filter (λ s, name s ≠ "A")
        (selectedSheetsArray (sheets st) (selectedSheets st)).
Proof.
  intros a b st.
  assert (H : "A" ∈ selectedSheets st).
  { change ("A" ∈ ({[ "A"; "B" ]} : gset string)).
    apply (bool_decide_unpack _). vm_compute. exact I. }
  exact (conj H (toggleSheet_deselects "A" st H)).
Defined.

(** ** [handleFileUpload] *)

(** A file passes the guard of [handleFileUpload]. *)
Lemma accepted_spec (f : File) :
  negb (includes validTypes (file_type f))
  && negb (matches_extension (file_name f)) = false
  ↔ In (file_type f) validTypes
    ∨ ∃ stem ext, file_name f = stem +:+ ext
                  ∧ In (Str.lowercase ext) [".xlsx"; ".xls"; ".csv"].
Proof.
  rewrite <- includes_spec, <- matches_extension_spec.
  destruct (includes validTypes (file_type f)),
           (matches_extension (file_name f)); simpl; split; auto;
    intros [H | H]; discriminate.
Qed.

(** X10. The spreadsheet reader is called exactly for the accepted files
    (the type is an accepted type or the name ends with an accepted
    extension) whose bytes could be read, and then with those bytes. *)
Theorem reader_called_iff_accepted
    (XLSX_read : list Byte.byte → option (list SheetData))
    (f : File) (st : State) (bytes : list Byte.byte) :
  In (EXlsxRead bytes) (snd (handleFileUpload XLSX_read (Some f) st))
  ↔ (In (file_type f) validTypes
     ∨ ∃ stem ext, file_name f = stem +:+ ext
                   ∧ In (Str.lowercase ext) [".xlsx"; ".xls"; ".csv"])
    ∧ file_bytes f = Some bytes.
Proof.
  rewrite <- accepted_spec. unfold handleFileUpload.
  destruct (negb (includes validTypes (file_type f))
            && negb (matches_extension (file_name f))).
  - simpl. split; [intros [H | []]; discriminate | intros [H _]; discriminate].
  - destruct (file_bytes f) as [arrayBuffer |].
    + destruct (XLSX_read arrayBuffer); simpl; split.
      * intros [[= ->] | [H | []]]; [now split | discriminate].
      * intros [_ [= ->]]. now left.
      * intros [[= ->] | [H | []]]; [now split | discriminate].
      * intros [_ [= ->]]. now left.
    + simpl. split; [intros [H | []]; discriminate | intros [_ H]; discriminate].
Qed.

(** X11. After an accepted file is read with at least one sheet, every
    sheet is selected: a conversion right after the upload writes the
    element of every sheet, in the order of the workbook. *)
Theorem upload_then_convert
    (XLSX_read : list Byte.byte → option (list SheetData))
    (f : File) (st : State) (bytes : list Byte.byte)
    (extracted : list SheetData) :
  negb (includes validTypes (file_type f))
  && negb (matches_extension (file_name f)) = false →
  file_bytes f = Some bytes →
  XLSX_read bytes = Some extracted →
  extracted ≠ [] →
  let loaded := fst (handleFileUpload XLSX_read (Some f) st) in
  sheets loaded = extracted
  ∧ (∀ s, In s extracted → name s ∈ selectedSheets loaded)
  ∧ xmlOutput (fst (convertToXml loaded))
    = prolog +:+ Str.cat (map sheetElement extracted) +:+ "</Workbook>"
  ∧ snd (convertToXml loaded)
    = [EToast (ConversionComplete (size (selectedSheets loaded)))].
Proof.
  intros Hacc Hbytes Hread Hne loaded.
  assert (Hl : loaded
               = {| file := Some f; sheets := extracted;
                    selectedSheets := list_to_set (name <$> extracted);
                    xmlOutput := xmlOutput st; processing := false |}).
  { unfold loaded, handleFileUpload. now rewrite Hacc, Hbytes, Hread. }
  assert (Hsel : ∀ s, In s extracted → name s ∈ selectedSheets loaded).
  { intros s Hs. rewrite Hl. simpl. apply elem_of_list_to_set.
    apply list_elem_of_fmap. exists s. split; [reflexivity |].
    now apply list_elem_of_In. }
  assert (Hall : selectedSheetsArray (sheets loaded) (selectedSheets loaded)
                 = extracted).
  { unfold selectedSheetsArray. rewrite Hl at 1. simpl.
    clear -Hsel. revert Hsel. generalize (selectedSheets loaded) as sel.
    intros sel. induction extracted as [|s l IH]; intros H; [reflexivity |].
    rewrite filter_cons, decide_True by (apply H; now left).
    f_equal. apply IH. intros x Hx. apply H. now right. }
  split; [now rewrite Hl |]. split; [exact Hsel |].
  unfold convertToXml. rewrite buildXml_total, Hall.
  assert (Hlen : (length (sheets loaded) =? 0) = false).
  { rewrite Hl. simpl. destruct extracted; [congruence | reflexivity]. }
  assert (Hsize : (size (selectedSheets loaded) =? 0) = false).
  { apply Nat.eqb_neq. intros H0. apply size_empty_inv in H0.
    destruct extracted as [|s l]; [congruence |].
    specialize (Hsel s (or_introl eq_refl)). rewrite H0 in Hsel.
    now apply not_elem_of_empty in Hsel. }
  rewrite Hlen, Hsize. simpl. now split.
Qed.

Lemma upload_then_convert_witness :
  let sheet := mkSheet "Sheet1" [[CStr "h"]; [CStr "v"]] in
  let f := mkFile "book.xlsx" EmptyString (Some []) in
  let read := λ _ : list Byte.byte, Some [sheet] in
  let loaded := fst (handleFileUpload read (Some f) initial) in
  negb (includes validTypes (file_type f))
  && negb (matches_extension (file_name f)) = false
  ∧ file_bytes f = Some []
  ∧ read [] = Some [sheet]
  ∧ [sheet] ≠ []
  ∧ xmlOutput (fst (convertToXml loaded))
    = prolog +:+ Str.cat (map sheetElement [sheet]) +:+ "</Workbook>".
Proof.
  intros sheet f read loaded.
  assert (H1 : negb (includes validTypes (file_type f))
               && negb (matches_extension (file_name f)) = false)
    by reflexivity.
  assert (Hb : file_bytes f = Some []) by reflexivity.
  assert (H2 : read [] = Some [sheet]) by reflexivity.
  assert (H3 : [sheet] ≠ []) by discriminate.
  pose proof (upload_then_convert read f initial [] [sheet] H1 Hb H2 H3)
    as (_ & _ & H4 & _).
  exact (conj H1 (conj Hb (conj H2 (conj H3 H4)))).
Defined.

(** X12. When an accepted file cannot be read (its bytes cannot be
    obtained, or the reader throws on them), the sheets, the selection and
    the output loaded before stay, only the file is dropped: a conversion
    after the failed upload gives what a conversion before it gives. *)
Theorem failed_upload_keeps_sheets
    (XLSX_read : list Byte.byte → option (list SheetData))
    (f : File) (st : State) :
  negb (includes validTypes (file_type f))
  && negb (matches_extension (file_name f)) = false →
  match file_bytes f with
  | Some bytes => XLSX_read bytes = None
  | None => True
  end →
  let after := fst (handleFileUpload XLSX_read (Some f) st) in
  snd (handleFileUpload XLSX_read (Some f) st)
  = match file_bytes f with
    | Some bytes => [EXlsxRead bytes; EToast ParseError]
    | None => [EToast ParseError]
    end
  ∧ file after = None
  ∧ sheets after = sheets st
  ∧ selectedSheets after = selectedSheets st
  ∧ xmlOutput after = xmlOutput st
  ∧ snd (convertToXml after) = snd (convertToXml st)
  ∧ xmlOutput (fst (convertToXml after)) = xmlOutput (fst (convertToXml st)).
Proof.
  intros Hacc Hread after.
  unfold after, handleFileUpload. rewrite Hacc.
  destruct (file_bytes f) as [bytes |]; [rewrite Hread |]; simpl;
    (repeat split; unfold convertToXml; simpl; rewrite !buildXml_total;
     destruct (length (sheets st) =? 0), (size (selectedSheets st) =? 0);
     reflexivity).
Qed.

Lemma failed_upload_keeps_sheets_witness :
  let f := mkFile "book.xlsx" EmptyString (Some []) in
  let read := λ _ : list Byte.byte, @None (list SheetData) in
  negb (includes validTypes (file_type f))
  && negb (matches_extension (file_name f)) = false
  ∧ read [] = None
  ∧ snd (handleFileUpload read (Some f) initial)
    = [EXlsxRead []; EToast ParseError]
  ∧ sheets (fst (handleFileUpload read (Some f) initial)) = sheets initial.
Proof.
  intros f read.
  assert (H1 : negb (includes validTypes (file_type f))
               && negb (matches_extension (file_name f)) = false)
    by reflexivity.
  assert (H2 : read [] = None) by reflexivity.
  pose proof (failed_upload_keeps_sheets read f initial H1 H2)
    as (H3 & _ & H4 & _).
  exact (conj H1 (conj H2 (conj H3 H4))).
Defined.

(** ** [convertToXml] *)

Lemma convertToXml_cases (st : State) :
  (convertToXml st = (st, [EToast NoSheetsSelected])
   ∧ (sheets st = [] ∨ selectedSheets st = ∅))
  ∨ (convertToXml st
     = ({| file := file st; sheets := sheets st;
           selectedSheets := selectedSheets st;
           xmlOutput :=
             prolog
             +:+ Str.cat (map sheetElement
                            (selectedSheetsArray (sheets st) (selectedSheets st)))
             +:+ "</Workbook>";
           processing := false |},
        [EToast (ConversionComplete (size (selectedSheets st)))])
     ∧ sheets st ≠ [] ∧ selectedSheets st ≠ ∅).
Proof.
  unfold convertToXml. rewrite buildXml_total.
  destruct (sheets st) as [|s0 rest] eqn:Hsheets; simpl.
  { left. split; [reflexivity | now left]. }
  destruct (size (selectedSheets st)) as [|k] eqn:Hsize; simpl.
  - left. split; [reflexivity |]. right.
    now apply size_empty_inv, leibniz_equiv in Hsize.
  - right. split; [reflexivity |]. split; [discriminate |].
    intros H. rewrite H, size_empty in Hsize. discriminate.
Qed.

Lemma convertToXml_keeps (st : State) :
  sheets (fst (convertToXml st)) = sheets st
  ∧ selectedSheets (fst (convertToXml st)) = selectedSheets st.
Proof.
  destruct (convertToXml_cases st) as [[-> _] | [-> _]]; now split.
Qed.

(** X14. Converting again changes nothing: the second conversion gives the
    state and the report of the first. *)
Theorem convertToXml_again (st : State) :
  convertToXml (fst (convertToXml st))
  = (fst (convertToXml st), snd (convertToXml st)).
Proof.
  destruct (convertToXml_cases st) as [[E _] | [E [Hs Hsel]]].
  - rewrite E. simpl. exact E.
  - rewrite E. simpl.
    destruct (convertToXml_cases
                {| file := file st; sheets := sheets st;
                   selectedSheets := selectedSheets st;
                   xmlOutput :=
                     prolog
                     +:+ Str.cat (map sheetElement
                                    (selectedSheetsArray (sheets st)
                                       (selectedSheets st)))
                     +:+ "</Workbook>";
                   processing := false |}) as [[_ [H | H]] | [E2 _]];
      simpl in *; [contradiction .. | exact E2].
Qed.

(** X15. Only the selected sheets count: the document written for a list of
    sheets is the document written for the selected sheets alone. *)
Theorem buildXml_selected_only (sheets : list SheetData)
    (selectedSheets : gset string) :
  buildXml sheets selectedSheets
  = buildXml (selectedSheetsArray sheets selectedSheets) selectedSheets.
Proof.
  rewrite !buildXml_total.
  assert (H : selectedSheetsArray
                (selectedSheetsArray sheets selectedSheets) selectedSheets
              = selectedSheetsArray sheets selectedSheets).
  { unfold selectedSheetsArray. rewrite filter_filter_sheets.
    apply list_filter_iff. tauto. }
  now rewrite H.
Qed.

(** ** The states of the component *)

Lemma perform_invariant
    (XLSX_read : list Byte.byte → option (list SheetData))
    (a : Action) (st : State) :
  offered a st →
  sheets st = [] ∨ selectedSheets st ⊆ list_to_set (name <$> sheets st) →
  sheets (perform XLSX_read a st) = []
  ∨ selectedSheets (perform XLSX_read a st)
    ⊆ list_to_set (name <$> sheets (perform XLSX_read a st)).
Proof.
  intros Hoff Hinv. destruct a as [files | n | |]; simpl.
  - destruct files as [|f files]; [exact Hinv |].
    unfold handleFiles, handleFileUpload.
    destruct (negb (includes validTypes (file_type f))
              && negb (matches_extension (file_name f))); [exact Hinv |].
    destruct (file_bytes f) as [bytes |]; [| exact Hinv].
    destruct (XLSX_read bytes); simpl; [now right | exact Hinv].
  - simpl in Hoff. apply list_elem_of_In in Hoff.
    destruct Hinv as [Hnil | Hsub].
    + rewrite Hnil in Hoff. now apply elem_of_nil in Hoff.
    + right. destruct (decide (n ∈ selectedSheets st)).
      * intros x Hx. apply Hsub. apply elem_of_difference in Hx. tauto.
      * intros x Hx. apply elem_of_union in Hx as [Hx | Hx]; [now apply Hsub |].
        apply elem_of_singleton in Hx as ->. now apply elem_of_list_to_set.
  - destruct (convertToXml_keeps st) as [-> ->]. exact Hinv.
  - now left.
Qed.

Lemma chosen_count (sheets : list SheetData) (selectedSheets : gset string) :
  NoDup (name <$> sheets) →
  selectedSheets ⊆ list_to_set (name <$> sheets) →
  length (selectedSheetsArray sheets selectedSheets) = size selectedSheets.
Proof.
  intros Hdup Hsub.
  assert (Hnd : NoDup (name <$> selectedSheetsArray sheets selectedSheets)).
  { eapply sublist_NoDup; [exact Hdup |].
    apply fmap_sublist, sublist_filter. }
  rewrite <- (length_fmap name), <- (size_list_to_set (C := gset string) _ Hnd).
  f_equal. apply set_eq. intros n.
  rewrite elem_of_list_to_set, selected_names, list_elem_of_filter.
  split; [tauto |]. intros Hn. split; [assumption |].
  apply Hsub in Hn. now apply elem_of_list_to_set in Hn.
Qed.

Lemma chosen_nonempty (sheets : list SheetData) (selectedSheets : gset string) :
  selectedSheets ⊆ list_to_set (name <$> sheets) →
  selectedSheets ≠ ∅ →
  selectedSheetsArray sheets selectedSheets ≠ [].
Proof.
  intros Hsub Hne Hnil.
  apply set_choose_L in Hne as [n Hn].
  pose proof (Hsub n Hn) as Hin.
  apply elem_of_list_to_set, list_elem_of_fmap in Hin as (s & -> & Hs).
  assert (Hs' : s ∈ selectedSheetsArray sheets selectedSheets).
  { apply list_elem_of_filter. now split. }
  rewrite Hnil in Hs'. now apply elem_of_nil in Hs'.
Qed.

Lemma reachable_invariant
    (XLSX_read : list Byte.byte → option (list SheetData)) (st : State) :
  reachable XLSX_read st →
  sheets st = [] ∨ selectedSheets st ⊆ list_to_set (name <$> sheets st).
Proof.
  induction 1 as [| st a Hreach IH Hoff]; [now left |].
  now apply perform_invariant.
Qed.

(** C1. In every state the component reaches, the conversion fails with
    [EmptySelection], leaving the state (the loaded sheets and the output
    among it) as it was, when the selection is empty, and also when the
    selection is not empty but no loaded sheet has a selected name. *)
Theorem empty_selection_fails
    (XLSX_read : list Byte.byte → option (list SheetData)) (st : State) :
  reachable XLSX_read st →
  selectedSheets st = ∅
  ∨ (selectedSheets st ≠ ∅
     ∧ ∀ s, In s (sheets st) → name s ∉ selectedSheets st) →
  convertToXml st = (st, [EToast EmptySelection]).
Proof.
  intros Hreach Hsel. apply conversion_fails_iff_nothing_to_convert.
  destruct Hsel as [Hempty | [Hne Hnone]]; [now left | right].
  destruct (reachable_invariant _ _ Hreach) as [Hnil | Hsub]; [exact Hnil |].
  exfalso. apply (chosen_nonempty _ _ Hsub Hne).
  unfold selectedSheetsArray.
  destruct (filter (λ s, name s ∈ selectedSheets st) (sheets st))
    as [|s l] eqn:E; [reflexivity |].
  assert (Hs : s ∈ filter (λ s, name s ∈ selectedSheets st) (sheets st)).
  { rewrite E. apply list_elem_of_here. }
  apply list_elem_of_filter in Hs as [Hin Hs].
  apply list_elem_of_In in Hs. now destruct (Hnone s Hs).
Qed.

(** A workbook is loaded and the file is changed: no sheet is left, the
    selection still holds the name of the sheet. *)
Lemma empty_selection_fails_witness :
  let sheet := mkSheet "Sheet1" [[CStr "Name"]; [CStr "Alice"]] in
  let f := mkFile "book.xlsx" EmptyString (Some []) in
  let read := λ _ : list Byte.byte, Some [sheet] in
  let st := perform read AReset (perform read (AUpload [f]) initial) in
  reachable read st
  ∧ (selectedSheets st = ∅
     ∨ (selectedSheets st ≠ ∅
        ∧ ∀ s, In s (sheets st) → name s ∉ selectedSheets st))
  ∧ convertToXml st = (st, [EToast EmptySelection]).
Proof.
  intros sheet f read st.
  assert (H1 : reachable read st).
  { apply reach_step; [apply reach_step; [apply reach_initial | exact I] |].
    exact I. }
  assert (H2 : selectedSheets st = ∅
               ∨ (selectedSheets st ≠ ∅
                  ∧ ∀ s, In s (sheets st) → name s ∉ selectedSheets st)).
  { right. split.
    - change ((list_to_set ["Sheet1"] : gset string) ≠ ∅).
      apply (bool_decide_unpack _). vm_compute. exact I.
    - intros s []. }
  exact (conj H1 (conj H2 (empty_selection_fails read st H1 H2))).
Defined.

(** X16. Whatever files are uploaded, sheets toggled, conversions run and
    resets made, as long as only listed sheets are toggled: either no sheet
    is loaded or every selected name is the name of a loaded sheet. *)
Theorem reachable_selection_listed
    (XLSX_read : list Byte.byte → option (list SheetData)) (st : State) :
  reachable XLSX_read st →
  sheets st = []
  ∨ ∀ n, n ∈ selectedSheets st → ∃ s, In s (sheets st) ∧ name s = n.
Proof.
  intros Hreach. destruct (reachable_invariant _ _ Hreach) as [Hnil | Hsub];
    [now left | right].
  intros n Hn. apply Hsub, elem_of_list_to_set, list_elem_of_fmap in Hn
    as (s & -> & Hs).
  exists s. split; [now apply list_elem_of_In | reflexivity].
Qed.

Lemma reachable_selection_listed_witness :
  let sheet := mkSheet "Sheet1" [[CStr "h"]; [CStr "v"]] in
  let f := mkFile "book.xlsx" EmptyString (Some []) in
  let read := λ _ : list Byte.byte, Some [sheet] in
  let st := perform read (AToggle "Sheet1") (perform read (AUpload [f]) initial) in
  reachable read st
  ∧ (sheets st = []
     ∨ ∀ n, n ∈ selectedSheets st → ∃ s, In s (sheets st) ∧ name s = n).
Proof.
  intros sheet f read st.
  assert (H : reachable read st).
  { apply reach_step; [apply reach_step; [apply reach_initial | exact I] |].
    simpl. now left. }
  exact (conj H (reachable_selection_listed read st H)).
Defined.

(** X17. In a state the component reaches, a conversion that completes
    writes at least one [<Sheet>] element: a document without sheets is
    never produced. *)
Theorem reachable_conversion_has_sheet
    (XLSX_read : list Byte.byte → option (list SheetData)) (st : State) :
  reachable XLSX_read st →
  convertToXml st = (st, [EToast EmptySelection])
  ∨ ∃ s rest,
      selectedSheetsArray (sheets st) (selectedSheets st) = s :: rest
      ∧ xmlOutput (fst (convertToXml st))
        = prolog +:+ Str.cat (map sheetElement (s :: rest)) +:+ "</Workbook>".
Proof.
  intros Hreach.
  destruct (convertToXml_cases st) as [[E _] | [E [Hs Hsel]]]; [now left | right].
  destruct (reachable_invariant _ _ Hreach) as [Hnil | Hsub]; [contradiction |].
  pose proof (chosen_nonempty _ _ Hsub Hsel) as Hne.
  destruct (selectedSheetsArray (sheets st) (selectedSheets st)) as [|s rest] eqn:Hc;
    [contradiction |].
  exists s, rest. split; [reflexivity |]. now rewrite E.
Qed.

Lemma reachable_conversion_has_sheet_witness :
  let sheet := mkSheet "Sheet1" [[CStr "h"]; [CStr "v"]] in
  let f := mkFile "book.xlsx" EmptyString (Some []) in
  let read := λ _ : list Byte.byte, Some [sheet] in
  let st := perform read (AUpload [f]) initial in
  reachable read st
  ∧ (convertToXml st = (st, [EToast EmptySelection])
     ∨ ∃ s rest,
         selectedSheetsArray (sheets st) (selectedSheets st) = s :: rest
         ∧ xmlOutput (fst (convertToXml st))
           = prolog +:+ Str.cat (map sheetElement (s :: rest)) +:+ "</Workbook>").
Proof.
  intros sheet f read st.
  assert (H : reachable read st).
  { apply reach_step; [apply reach_initial | exact I]. }
  exact (conj H (reachable_conversion_has_sheet read st H)).
Defined.

Lemma reachable_names_distinct
    (XLSX_read : list Byte.byte → option (list SheetData)) (st : State) :
  (∀ bytes l, XLSX_read bytes = Some l → NoDup (name <$> l)) →
  reachable XLSX_read st → NoDup (name <$> sheets st).
Proof.
  intros Hread. induction 1 as [| st a Hreach IH Hoff]; [constructor |].
  destruct a as [files | n | |]; simpl.
  - destruct files as [|f files]; [exact IH |].
    unfold handleFiles, handleFileUpload.
    destruct (negb (includes validTypes (file_type f))
              && negb (matches_extension (file_name f))); [exact IH |].
    destruct (file_bytes f) as [bytes |]; [| exact IH].
    destruct (XLSX_read bytes) eqn:E; simpl; [| exact IH].
    now apply (Hread _ _ E).
  - exact IH.
  - destruct (convertToXml_keeps st) as [-> _]. exact IH.
  - constructor.
Qed.

(** X18. When the reader gives the sheets of a workbook pairwise distinct
    names, the number a completed conversion reports in a reached state is
    the number of [<Sheet>] elements of its document. *)
Theorem reachable_count_reported
    (XLSX_read : list Byte.byte → option (list SheetData)) (st : State) :
  (∀ bytes l, XLSX_read bytes = Some l → NoDup (name <$> l)) →
  reachable XLSX_read st →
  convertToXml st = (st, [EToast EmptySelection])
  ∨ snd (convertToXml st)
    = [EToast (ConversionComplete
                 (length (selectedSheetsArray (sheets st) (selectedSheets st))))].
Proof.
  intros Hread Hreach.
  destruct (convertToXml_cases st) as [[E _] | [E [Hs Hsel]]]; [now left | right].
  destruct (reachable_invariant _ _ Hreach) as [Hnil | Hsub]; [contradiction |].
  rewrite E. simpl.
  rewrite chosen_count; [reflexivity | | exact Hsub].
  now apply (reachable_names_distinct XLSX_read).
Qed.

Lemma reachable_count_reported_witness :
  let sheet := mkSheet "Sheet1" [[CStr "h"]; [CStr "v"]] in
  let f := mkFile "book.xlsx" EmptyString (Some []) in
  let read := λ _ : list Byte.byte, Some [sheet] in
  let st := perform read (AUpload [f]) initial in
  (∀ bytes l, read bytes = Some l → NoDup (name <$> l))
  ∧ reachable read st
  ∧ (convertToXml st = (st, [EToast EmptySelection])
     ∨ snd (convertToXml st)
       = [EToast (ConversionComplete
                    (length (selectedSheetsArray (sheets st)
                               (selectedSheets st))))]).
Proof.
  intros sheet f read st.
  assert (H1 : ∀ bytes l, read bytes = Some l → NoDup (name <$> l)).
  { intros bytes l [= <-]. simpl. apply NoDup_singleton. }
  assert (H2 : reachable read st).
  { apply reach_step; [apply reach_initial | exact I]. }
  exact (conj H1 (conj H2 (reachable_count_reported read st H1 H2))).
Defined.

(** ** [downloadXml] *)

Lemma extension_has_dot (a b : string) :
  Str.all extension_char (a +:+ "." +:+ b) = false.
Proof.
  rewrite StrFacts.all_app, StrFacts.app_cons. simpl.
  apply andb_false_r.
Qed.

Lemma stripExtension_cons (c : ascii) (rest : string) :
  stripExtension (String c rest)
  = if Ascii.eqb c "."
       && negb (String.eqb rest EmptyString)
       && Str.all extension_char rest
    then EmptyString
    else String c (stripExtension rest).
Proof. reflexivity. Qed.

Lemma stripExtension_strips (stem ext : string) :
  ext ≠ EmptyString →
  Str.all extension_char ext = true →
  stripExtension (stem +:+ "." +:+ ext) = stem.
Proof.
  intros Hne Hall. induction stem as [|c stem IH].
  - rewrite StrFacts.app_nil_l, StrFacts.app_cons, StrFacts.app_nil_l.
    rewrite stripExtension_cons, Hall.
    destruct (String.eqb_spec ext EmptyString); [contradiction | reflexivity].
  - rewrite StrFacts.app_cons, stripExtension_cons, extension_has_dot.
    rewrite andb_false_r. now rewrite IH.
Qed.

(** X19. The name of the saved file: for a source name made of a stem, a
    dot and an extension that is not empty and holds neither a dot nor a
    slash, the extension is replaced by [xml], whatever dots the stem
    holds. *)
Theorem downloadName_replaces_extension (f : File) (stem ext : string) :
  file_name f = stem +:+ "." +:+ ext →
  ext ≠ EmptyString →
  Str.all extension_char ext = true →
  downloadName (Some f) = stem +:+ ".xml".
Proof.
  intros Hname Hne Hall. unfold downloadName.
  now rewrite Hname, stripExtension_strips.
Qed.

Lemma downloadName_replaces_extension_witness :
  let f := mkFile "sales.2024.xlsx" EmptyString (Some []) in
  file_name f = "sales.2024" +:+ "." +:+ "xlsx"
  ∧ "xlsx" ≠ EmptyString
  ∧ Str.all extension_char "xlsx" = true
  ∧ downloadName (Some f) = "sales.2024" +:+ ".xml".
Proof.
  intros f.
  assert (H1 : file_name f = "sales.2024" +:+ "." +:+ "xlsx") by reflexivity.
  assert (H2 : "xlsx" ≠ EmptyString) by discriminate.
  assert (H3 : Str.all extension_char "xlsx" = true) by reflexivity.
  exact (conj H1 (conj H2 (conj H3
           (downloadName_replaces_extension f "sales.2024" "xlsx" H1 H2 H3)))).
Defined.

(** X20. A source name without a dot is kept whole: the saved file is the
    name followed by [.xml]. *)
Theorem downloadName_without_extension (f : File) :
  Str.mem "." (file_name f) = false →
  downloadName (Some f) = file_name f +:+ ".xml".
Proof.
  intros H. unfold downloadName. f_equal.
  induction (file_name f) as [|c s IH]; [reflexivity |].
  rewrite mem_cons in H. apply orb_false_elim in H as [Hc Hs].
  rewrite stripExtension_cons, Ascii.eqb_sym, Hc. simpl. now rewrite IH.
Qed.

Lemma downloadName_without_extension_witness :
  let f := mkFile "README" EmptyString (Some []) in
  Str.mem "." (file_name f) = false
  ∧ downloadName (Some f) = file_name f +:+ ".xml".
Proof.
  intros f.
  assert (H : Str.mem "." (file_name f) = false) by reflexivity.
  exact (conj H (downloadName_without_extension f H)).
Defined.

Lemma lower_dot (c : ascii) : Str.lower c = "."%char → c = "."%char.
Proof.
  destruct c as [[] [] [] [] [] [] [] []]; vm_compute; intros H;
    first [reflexivity | discriminate H].
Qed.

Lemma lower_extension_char (c : ascii) :
  extension_char (Str.lower c) = true → extension_char c = true.
Proof.
  destruct c as [[] [] [] [] [] [] [] []]; vm_compute; intros H;
    first [reflexivity | discriminate H].
Qed.

Lemma lowercase_extension_chars (s : string) :
  Str.all extension_char (Str.lowercase s) = true →
  Str.all extension_char s = true.
Proof.
  induction s as [|c s IH]; [reflexivity |].
  simpl. intros H. apply andb_prop in H as [Hc Hs].
  now rewrite (lower_extension_char _ Hc), IH.
Qed.

Lemma accepted_extension_shape (ext : string) :
  In (Str.lowercase ext) [".xlsx"; ".xls"; ".csv"] →
  ∃ e, ext = "." +:+ e ∧ e ≠ EmptyString ∧ Str.all extension_char e = true.
Proof.
  intros Hin. destruct ext as [|c e].
  { simpl in Hin. destruct Hin as [H | [H | [H | []]]]; discriminate. }
  exists e. simpl in Hin.
  assert (Hc : Str.lower c = "."%char
               ∧ In (Str.lowercase e) ["xlsx"; "xls"; "csv"]).
  { destruct Hin as [H | [H | [H | []]]]; injection H as <- <-;
      (split; [reflexivity | simpl; tauto]). }
  destruct Hc as [Hc He]. apply lower_dot in Hc as ->.
  split; [reflexivity |]. split.
  - intros ->. simpl in He. destruct He as [H | [H | [H | []]]]; discriminate.
  - apply lowercase_extension_chars.
    destruct He as [<- | [<- | [<- | []]]]; reflexivity.
Qed.

(** X21. For a file taken for its name (the name ends with [.xlsx], [.xls]
    or [.csv] in whatever case), the saved file is named after the source:
    the accepted extension replaced by [.xml]. *)
Theorem downloadName_of_accepted_name (f : File) :
  matches_extension (file_name f) = true →
  ∃ stem ext,
    file_name f = stem +:+ ext
    ∧ In (Str.lowercase ext) [".xlsx"; ".xls"; ".csv"]
    ∧ downloadName (Some f) = stem +:+ ".xml".
Proof.
  intros H. apply matches_extension_spec in H as (stem & ext & Hname & Hin).
  exists stem, ext. split; [exact Hname |]. split; [exact Hin |].
  apply accepted_extension_shape in Hin as (e & -> & Hne & Hall).
  unfold downloadName. now rewrite Hname, stripExtension_strips.
Qed.

Lemma downloadName_of_accepted_name_witness :
  let f := mkFile "Book.XLSX" EmptyString (Some []) in
  matches_extension (file_name f) = true
  ∧ ∃ stem ext,
      file_name f = stem +:+ ext
      ∧ In (Str.lowercase ext) [".xlsx"; ".xls"; ".csv"]
      ∧ downloadName (Some f) = stem +:+ ".xml".
Proof.
  intros f.
  assert (H : matches_extension (file_name f) = true) by reflexivity.
  exact (conj H (downloadName_of_accepted_name f H)).
Defined.

Lemma prolog_not_empty (rest : string) :
  String.eqb (prolog +:+ rest) EmptyString = false.
Proof. reflexivity. Qed.

(** X22. [downloadXml] saves nothing while there is no output (at the
    start and after a reset); after a conversion that completes it saves the
    document just written, under the name derived from the loaded file. *)
Theorem downloadXml_after_conversion (st : State) :
  downloadXml initial = None
  ∧ downloadXml (resetFile st) = None
  ∧ (convertToXml st = (st, [EToast EmptySelection])
     ∨ downloadXml (fst (convertToXml st))
       = Some {| download_name := downloadName (file st);
                 download_text :=
                   prolog
                   +:+ Str.cat (map sheetElement
                                  (selectedSheetsArray (sheets st)
                                     (selectedSheets st)))
                   +:+ "</Workbook>" |}).
Proof.
  split; [reflexivity |]. split; [reflexivity |].
  destruct (convertToXml_cases st) as [[E _] | [E _]]; [now left | right].
  rewrite E. unfold downloadXml. cbn [fst xmlOutput file].
  now rewrite prolog_not_empty.
Qed.

(** ** Tag names and rows *)

Lemma string_of_nat_inj (n m : nat) : string_of_nat n = string_of_nat m → n = m.
Proof.
  unfold string_of_nat. intros H.
  assert (Hu : Nat.to_uint n = Nat.to_uint m).
  { apply (f_equal NilEmpty.uint_of_string) in H.
    rewrite !NilEmpty.usu in H. now injection H. }
  rewrite <- (DecimalNat.Unsigned.of_to n), <- (DecimalNat.Unsigned.of_to m).
  now rewrite Hu.
Qed.

Lemma tagName_fallback (headers : list Cell) (cellIndex : nat) :
  (∀ h, In h headers → truthy h = false) →
  tagName headers cellIndex = "Column" +:+ string_of_nat (cellIndex + 1).
Proof.
  intros H. unfold tagName.
  destruct (headers !! cellIndex) as [h |] eqn:E; [| reflexivity].
  rewrite (H h); [reflexivity |].
  apply list_elem_of_In, list_elem_of_lookup. now exists cellIndex.
Qed.

(** X23. Under a header row without usable header (no cells, or only
    empty strings, zeros and [false]), the cells of different columns get
    different tag names. *)
Theorem fallback_names_distinct (headers : list Cell) (i j : nat) :
  (∀ h, In h headers → truthy h = false) →
  i ≠ j →
  tagName headers i ≠ tagName headers j.
Proof.
  intros H Hij. rewrite !tagName_fallback by assumption.
  intros E. apply (inj (String.app "Column")) in E.
  apply string_of_nat_inj in E. lia.
Qed.

Lemma fallback_names_distinct_witness :
  (∀ h, In h [CStr EmptyString; CNum 0] → truthy h = false)
  ∧ 0 ≠ 1
  ∧ tagName [CStr EmptyString; CNum 0] 0 ≠ tagName [CStr EmptyString; CNum 0] 1.
Proof.
  assert (H1 : ∀ h, In h [CStr EmptyString; CNum 0] → truthy h = false).
  { intros h [<- | [<- | []]]; reflexivity. }
  assert (H2 : 0 ≠ 1) by discriminate.
  exact (conj H1 (conj H2
           (fallback_names_distinct [CStr EmptyString; CNum 0] 0 1 H1 H2))).
Defined.

Lemma tagName_take (headers : list Cell) (n i : nat) :
  i < n → tagName (take n headers) i = tagName headers i.
Proof. intros H. unfold tagName. now rewrite lookup_take_lt. Qed.

Lemma children_take (headers row : list Cell) (n k : nat) :
  k + length row ≤ n →
  children_from (take n headers) k row = children_from headers k row.
Proof.
  revert k. induction row as [|cell row IH]; intros k Hk; [reflexivity |].
  simpl in *. unfold cellXml. rewrite tagName_take by lia.
  f_equal. apply IH. lia.
Qed.

(** X24. A row is written from the header cells above its own cells only:
    header cells to the right of the last cell of the row have no effect on
    its text. *)
Theorem row_ignores_further_headers (headers row : list Cell) (xml : string) :
  emit_row headers row xml = emit_row (take (length row) headers) row xml.
Proof.
  rewrite !emit_row_appends. f_equal. unfold rowXml, children.
  now rewrite children_take by lia.
Qed.

Lemma rows_without_blank (headers : list Cell) (rows : list (list Cell)) :
  Str.cat (map (rowXml headers)
             (filter (λ row, existsb not_empty_string row = true) rows))
  = Str.cat (map (rowXml headers) rows).
Proof.
  induction rows as [|row rows IH]; [reflexivity |].
  rewrite filter_cons.
  destruct (decide (existsb not_empty_string row = true)) as [Hr | Hr].
  - simpl. now rewrite IH.
  - simpl. rewrite IH. unfold rowXml at 2.
    apply not_true_is_false in Hr. now rewrite Hr.
Qed.

(** X25. The data rows whose cells are all the empty string can be taken
    out of a sheet without changing what is written for the sheet. *)
Theorem blank_rows_do_not_count (sheetName : string) (headers : list Cell)
    (rows : list (list Cell)) (xml : string) :
  emit_sheet (mkSheet sheetName (headers :: rows)) xml
  = emit_sheet
      (mkSheet sheetName
         (headers :: filter (λ row, existsb not_empty_string row = true) rows))
      xml.
Proof.
  rewrite !emit_sheet_appends. unfold sheetElement, sheetOpen. simpl.
  now rewrite rows_without_blank.
Qed.

Lemma get_replaceAll (s : string) (i : nat) :
  String.get i (Str.replaceAll outside_name "_" s)
  = (λ c, if is_name_char c then c else "_"%char) <$> String.get i s.
Proof.
  revert i. induction s as [|c s IH]; intros i; [reflexivity |].
  rewrite replaceAll_cons, outside_name_eq.
  destruct (is_name_char c) eqn:E; simpl negb; cbv iota;
    rewrite StrFacts.app_cons, StrFacts.app_nil_l;
    (destruct i as [|i]; simpl; [now rewrite ?E | apply IH]).
Qed.

(** X26. [sanitizeTagName] works position by position: the first character
    is kept when it is a letter or an underscore, a later character when it
    is a letter, a digit, an underscore or a hyphen, and every other
    character becomes an underscore. *)
Theorem sanitizeTagName_positions (tag : string) (i : nat) :
  String.get i (sanitizeTagName tag)
  = (λ c, if (if (i =? 0)%nat then is_name_start c else is_name_char c)
          then c else "_"%char) <$> String.get i tag.
Proof.
  unfold sanitizeTagName.
  pose proof (get_replaceAll tag) as Hget.
  destruct (Str.replaceAll outside_name "_" tag) as [|d t] eqn:Et.
  - specialize (Hget i). simpl in *.
    destruct (String.get i tag); [discriminate | reflexivity].
  - unfold Str.replaceLeading. rewrite outside_start_eq.
    destruct i as [|i].
    + specialize (Hget 0). simpl in Hget. simpl Nat.eqb. cbv iota.
      destruct (String.get 0 tag) as [c |]; [| discriminate].
      simpl in Hget. injection Hget as ->. simpl.
      destruct (is_name_char c) eqn:Ec.
      * destruct (is_name_start c); reflexivity.
      * assert (is_name_start c = false) as ->.
        { destruct (is_name_start c) eqn:Es; [| reflexivity].
          apply name_start_name_char in Es. congruence. }
        reflexivity.
    + specialize (Hget (S i)). simpl Nat.eqb. cbv iota.
      rewrite <- Hget.
      destruct (negb (is_name_start d)); reflexivity.
Qed.




